(** * eslint-doc-generator: header splicing, rule-doc validation, legends

    A shallow embedding of the generator's core ([replaceOrCreateHeader],
    [expectContent], the rule loop of [generate]), of the legend table of
    [lib/legend.ts] and of the severity sets of [lib/types.ts], together
    with the properties the documentation states about them.

    JavaScript strings are modelled as [string]; arrays as [list];
    [undefined] as [None]; a thrown exception as [Throw]. *)

From Stdlib Require Import ZArith Lia Ascii String.
From stdpp Require Import base option list strings gmap.

Local Open Scope string_scope.
Local Open Scope list_scope.
Local Open Scope Z_scope.

(** ** JavaScript built-ins used by the sources *)

Module Js.

(** Exceptions raised by the modelled code. *)
Inductive Exn : Type :=
| TypeError
| Error (message : string)
| ENOENT (path : string).

Inductive result (A : Type) : Type :=
| Ok (a : A)
| Throw (e : Exn).
Global Arguments Ok {A} a.
Global Arguments Throw {A} e.

Definition bind {A B} (r : result A) (k : A -> result B) : result B :=
  match r with
  | Ok a => k a
  | Throw e => Throw e
  end.

(** [Array.prototype.some] with a callback that may throw: stops at the
    first element the callback accepts or throws on. *)
Fixpoint some {A} (p : A -> result bool) (l : list A) : result bool :=
  match l with
  | [] => Ok false
  | x :: l' =>
      match p x with
      | Ok true => Ok true
      | Ok false => some p l'
      | Throw e => Throw e
      end
  end.

(** A [for ... of] loop whose body updates the loop state or throws. *)
Fixpoint forOf {S A} (body : S -> A -> result S) (l : list A) (s : S)
  : result S :=
  match l with
  | [] => Ok s
  | x :: l' =>
      match body s x with
      | Ok s' => forOf body l' s'
      | Throw e => Throw e
      end
  end.

(** [arr.map(f)] / [arr.flatMap(f)] with a callback that may throw. *)
Fixpoint mapR {A B} (f : A -> result B) (l : list A) : result (list B) :=
  match l with
  | [] => Ok []
  | x :: l' =>
      match f x with
      | Ok y =>
          match mapR f l' with
          | Ok ys => Ok (y :: ys)
          | Throw e => Throw e
          end
      | Throw e => Throw e
      end
  end.

(** [Array.prototype.indexOf] from position [i]: strict equality, first
    match, [-1] when there is none. *)
Fixpoint indexOf_from (l : list string) (x : string) (i : Z) : Z :=
  match l with
  | [] => -1
  | y :: l' => if decide (y = x) then i else indexOf_from l' x (i + 1)
  end.

Definition indexOf (l : list string) (x : string) : Z := indexOf_from l x 0.

(** [Array.prototype.splice(start, deleteCount, ...items)], as the array
    it leaves behind: a negative [start] counts from the end, and both
    arguments are clamped to the array. *)
Definition splice {A} (l : list A) (start deleteCount : Z) (items : list A)
  : list A :=
  let len := Z.of_nat (length l) in
  let actualStart :=
    if start <? 0 then Z.max (len + start) 0 else Z.min start len in
  let actualDeleteCount := Z.min (Z.max deleteCount 0) (len - actualStart) in
  take (Z.to_nat actualStart) l ++ items
    ++ drop (Z.to_nat (actualStart + actualDeleteCount)) l.

(** [String.prototype.startsWith]. *)
Definition startsWith (s p : string) : bool := String.prefix p s.

(** [String.prototype.includes]: [sub] occurs somewhere in [s]. *)
Fixpoint includes (s sub : string) : bool :=
  String.prefix sub s ||
  match s with
  | EmptyString => false
  | String _ s' => includes s' sub
  end.

(** [Array.prototype.includes] on an array of strings. *)
Definition arr_includes (l : list string) (x : string) : bool :=
  bool_decide (x ∈ l).

(** [Array.prototype.find]. *)
Fixpoint find {A} (p : A -> bool) (l : list A) : option A :=
  match l with
  | [] => None
  | x :: l' => if p x then Some x else find p l'
  end.

(** Truthiness of a possibly undefined string: [undefined] and the empty
    string are falsy. *)
Definition truthy (s : option string) : bool :=
  match s with
  | Some s => negb (String.eqb s "")
  | None => false
  end.

(** [str.split(sep)] for a one-character separator: never the empty
    array, and one more piece than there are separators. *)
Fixpoint split (sep : Ascii.ascii) (s : string) : list string :=
  match s with
  | EmptyString => [""]
  | String c s' =>
      if Ascii.eqb c sep then "" :: split sep s'
      else match split sep s' with
           | [] => [String c ""]
           | piece :: pieces => String c piece :: pieces
           end
  end.

(** [arr.join(sep)]. *)
Fixpoint join (sep : string) (l : list string) : string :=
  match l with
  | [] => ""
  | [x] => x
  | x :: l' => x +:+ sep +:+ join sep l'
  end.

End Js.

Import Js.

(** Sequencing of computations that may throw, in stdpp's [x ← m; k]. *)
#[global] Instance result_bind : MBind result := fun _ _ k r => Js.bind r k.

Definition newline : Ascii.ascii := Ascii.ascii_of_nat 10.
Definition backslash : Ascii.ascii := Ascii.ascii_of_nat 92.

(** ** Data model ([lib/types.ts]) *)

(** [RuleSeverity]: the numeric and the string encodings of a severity. *)
Inductive RuleSeverity : Type :=
| SeverityNumber (n : Z)
| SeverityString (s : string).

#[global] Instance RuleSeverity_eq_dec : EqDecision RuleSeverity.
Proof. solve_decision. Defined.

#[global] Instance RuleSeverity_countable : Countable RuleSeverity.
Proof.
  refine (inj_countable'
    (fun v => match v with
              | SeverityNumber n => inl n
              | SeverityString s => inr s
              end)
    (fun v => match v with
              | inl n => SeverityNumber n
              | inr s => SeverityString s
              end) _).
  by intros [].
Defined.

Definition SEVERITY_ERROR : gset RuleSeverity :=
  {[ SeverityNumber 2; SeverityString "error" ]}.
Definition SEVERITY_WARN : gset RuleSeverity :=
  {[ SeverityNumber 1; SeverityString "warn" ]}.
Definition SEVERITY_OFF : gset RuleSeverity :=
  {[ SeverityNumber 0; SeverityString "off" ]}.

Module SEVERITY_TYPE.
Inductive t : Type := error | warn | off.
End SEVERITY_TYPE.

Definition SEVERITY_TYPE_TO_SET (key : SEVERITY_TYPE.t) : gset RuleSeverity :=
  match key with
  | SEVERITY_TYPE.error => SEVERITY_ERROR
  | SEVERITY_TYPE.warn => SEVERITY_WARN
  | SEVERITY_TYPE.off => SEVERITY_OFF
  end.

(** A JSON value, for [JSONSchema4]. *)
#[local] Unset Elimination Schemes.
Inductive JSON : Type :=
| JNull
| JBool (b : bool)
| JNumber (n : Z)
| JString (s : string)
| JArray (items : list JSON)
| JObject (fields : list (string * JSON)).
#[local] Set Elimination Schemes.

(** [rule.meta.docs] and [rule.meta]: optional members are [option]s. *)
Record Docs : Type := {
  docs_description : option string;
  docs_requiresTypeChecking : option bool;
}.

Record Meta : Type := {
  meta_docs : option Docs;
  meta_fixable : option string;
  meta_hasSuggestions : option bool;
  meta_deprecated : option bool;
  meta_schema : JSON;
  meta_type : option string;
}.

(** A rule is a function (the legacy format) or an object that may carry
    [meta]. *)
Inductive Rule : Type :=
| RuleFunction
| RuleObject (meta : option Meta).

Definition rule_meta (rule : Rule) : option Meta :=
  match rule with
  | RuleFunction => None
  | RuleObject meta => meta
  end.

(** A config assigns severities to rules. *)
Record Config : Type := {
  config_rules : list (string * RuleSeverity);
}.

(** [Plugin]: both members are optional; an object is the list of its
    entries in enumeration order. *)
Record Plugin : Type := {
  rules : option (list (string * Rule));
  configs : option (list (string * Config));
}.

Record RuleDetails : Type := {
  name : string;
  description : option string;
  fixable : bool;
  hasSuggestions : bool;
  requiresTypeChecking : bool;
  deprecated : bool;
  schema : JSON;
  type : option string;
}.

Record ConfigEmoji : Type := {
  config : string;
  emoji : string;
}.

Definition ConfigEmojis : Type := list ConfigEmoji.

(** The members of [COLUMN_TYPE] that the table of [lib/legend.ts] is
    keyed by. *)
Inductive COLUMN_TYPE : Type :=
| CONFIGS
| DEPRECATED
| DESCRIPTION
| FIXABLE
| HAS_SUGGESTIONS
| NAME
| REQUIRES_TYPE_CHECKING
| TYPE.

(** ** Imported modules

    The generator imports its helpers from modules outside this
    development; they are taken as parameters. *)

(** [rule-options.js], [rule-notices.js], [rule-list.js], [markers.js],
    [package-json.js], [node:path] and prettier, as the generator uses
    them. *)
Class GeneratorImports : Type := {
  hasOptions : JSON -> bool;
  getAllNamedOptions : JSON -> list string;
  generateRuleHeaderLines :
    option string -> string -> Plugin -> string -> list string;
  updateRulesList : list RuleDetails -> string -> Plugin -> string -> string;
  END_RULE_HEADER_MARKER : string;
  loadPlugin : string -> result Plugin;
  getPluginPrefix : string -> string;
  format : string -> string -> string;
  resolve : list string -> string;
  join : list string -> string;
}.

(** [emojis.js] and [rule-type.js], as the legends use them. *)
Class LegendImports : Type := {
  EMOJI_DEPRECATED : string;
  EMOJI_FIXABLE : string;
  EMOJI_HAS_SUGGESTIONS : string;
  EMOJI_CONFIG : string;
  EMOJI_REQUIRES_TYPE_CHECKING : string;
  EMOJI_TYPE : string;
  RULE_TYPES : list string;
  RULE_TYPE_MESSAGES_LEGEND : string -> string;
}.

(** ** The world the generator runs in

    The files on disk, the lines written to standard error and
    [process.exitCode] ([None] while it is still undefined). *)
Record World : Type := {
  files : gmap string string;
  stderr : list string;
  exitCode : option Z;
}.

Definition readFileSync (path : string) (w : World) : result string :=
  match files w !! path with
  | Some contents => Ok contents
  | None => Throw (ENOENT path)
  end.

Definition writeFileSync (path data : string) (w : World) : World :=
  {| files := <[path := data]> (files w);
     stderr := stderr w;
     exitCode := exitCode w |}.

(** ** The document splicer *)

(** [replaceOrCreateHeader(lines, newHeaderLines, marker)]: the source
    mutates [lines] in place; the function returns the array it leaves. *)
Definition replaceOrCreateHeader
  (lines newHeaderLines : list string) (marker : string) : list string :=
  let markerLineIndex := indexOf lines marker in
  let lines :=
    if (markerLineIndex =? -1)
       && (0 <? Z.of_nat (length lines))
       && match lines with
          | line0 :: _ => startsWith line0 "# "
          | [] => false
          end
    then splice lines 0 1 []
    else lines in
  splice lines 0 (markerLineIndex + 1) newHeaderLines.

(** Lines of [lines] that survive a splice when no marker is present. *)
Definition withoutLeadingTitle (lines : list string) : list string :=
  match lines with
  | line0 :: rest => if String.prefix "# " line0 then rest else lines
  | [] => []
  end.

(** The marker closes the block [new]: it is the last line and occurs
    nowhere before. *)
Definition endsWithMarker (new : list string) (marker : string) : Prop :=
  exists pre, new = pre ++ [marker] /\ marker ∉ pre.

(** ** Rule-doc validation *)

(** [expectContent(ruleName, contents, content, expected)]. *)
Definition expectContent
  (ruleName contents content : string) (expected : bool) (w : World) : World :=
  if negb (Bool.eqb (includes contents content) expected) then
    {| files := files w;
       stderr := stderr w ++
         [ "`" +:+ ruleName +:+ "` rule doc should "
             +:+ (if expected then "" else "not ")
             +:+ "have included: " +:+ content ];
       exitCode := Some 1 |}
  else w.

(** ** The metadata normalizer *)

(** The object literal built for one entry that passed the [meta] filter. *)
Definition ruleDetails (nameAndRule : string * Rule) : result RuleDetails :=
  let '(name, rule) := nameAndRule in
  match rule_meta rule with
  | None => Throw TypeError
  | Some meta =>
      match meta_docs meta with
      | None => Throw TypeError
      | Some docs =>
          Ok {| name := name;
                description := docs_description docs;
                fixable :=
                  if truthy (meta_fixable meta)
                  then arr_includes ["code"; "whitespace"]
                         (default "" (meta_fixable meta))
                  else false;
                hasSuggestions := default false (meta_hasSuggestions meta);
                requiresTypeChecking :=
                  default false (docs_requiresTypeChecking docs);
                deprecated := default false (meta_deprecated meta);
                schema := meta_schema meta;
                type := None |}
      end
  end.

(** [details]: the entries of [plugin.rules] that carry [meta], mapped to
    [RuleDetails]. *)
Definition details (plugin : Plugin) : result (list RuleDetails) :=
  match rules plugin with
  | None => Throw TypeError
  | Some entries =>
      mapR ruleDetails
        (List.filter (fun nameAndRule => bool_decide (is_Some (rule_meta nameAndRule.2)))
           entries)
  end.

(** ** The generator *)

Section generator.
Context `{!GeneratorImports}.

Definition pathToDoc (path name : string) : string :=
  join [resolve [path; "docs"]; "rules"; name +:+ ".md"].

(** The body of the loop over [details]. *)
Definition updateRuleDoc
  (path : string) (plugin : Plugin) (pluginPrefix : string)
  (w : World) (d : RuleDetails) : result World :=
  let pathToDoc := pathToDoc path (name d) in
  contents ← readFileSync pathToDoc w;
  let lines := split newline contents in
  let newHeaderLines :=
    generateRuleHeaderLines (description d) (name d) plugin pluginPrefix in
  let lines := replaceOrCreateHeader lines newHeaderLines END_RULE_HEADER_MARKER in
  let w := writeFileSync pathToDoc (format (Js.join (String newline "") lines) path) w in
  let w := expectContent (name d) contents "## Options" (hasOptions (schema d)) w in
  Ok (fold_left
        (fun w namedOption => expectContent (name d) contents namedOption true w)
        (getAllNamedOptions (schema d)) w).

(** The loop over [details]. *)
Definition updateRuleDocs
  (path : string) (plugin : Plugin) (pluginPrefix : string)
  (details : list RuleDetails) (w : World) : result World :=
  forOf (updateRuleDoc path plugin pluginPrefix) details w.

(** [generate(path)]. *)
Definition generate (path : string) (w : World) : result World :=
  plugin ← loadPlugin path;
  let pluginPrefix := getPluginPrefix path in
  let readmePath := resolve [path; "README.md"] in
  details ← details plugin;
  w ← updateRuleDocs path plugin pluginPrefix details w;
  readme ← readFileSync readmePath w;
  let readme := updateRulesList details readme plugin pluginPrefix in
  Ok (writeFileSync readmePath (format readme path) w).

(** *** What validation is expected to record *)

(** The failure of the Options-section check on a doc with [contents]:
    recorded when the presence of the heading differs from whether the
    schema has options. *)
Definition optionsSectionFailure (d : RuleDetails) (contents : string)
  : list string :=
  if bool_decide (includes contents "## Options" = hasOptions (schema d))
  then []
  else if hasOptions (schema d)
       then ["`" +:+ name d +:+ "` rule doc should have included: ## Options"]
       else ["`" +:+ name d +:+ "` rule doc should not have included: ## Options"].

(** One failure for each named option that the doc does not mention. *)
Definition namedOptionFailures (d : RuleDetails) (contents : string)
  : list string :=
  flat_map
    (fun namedOption =>
       if includes contents namedOption then []
       else ["`" +:+ name d +:+ "` rule doc should have included: "
               +:+ namedOption])
    (getAllNamedOptions (schema d)).

Definition expectedFailures (d : RuleDetails) (contents : string)
  : list string :=
  optionsSectionFailure d contents ++ namedOptionFailures d contents.

(** The doc of rule [d] as the world [w] holds it. *)
Definition docContents (path : string) (w : World) (d : RuleDetails) : string :=
  default "" (files w !! pathToDoc path (name d)).

(** The doc of rule [d] after its header was regenerated from [contents]. *)
Definition updatedDoc
  (path : string) (plugin : Plugin) (pluginPrefix : string)
  (d : RuleDetails) (contents : string) : string :=
  format
    (Js.join (String newline "")
       (replaceOrCreateHeader (split newline contents)
          (generateRuleHeaderLines (description d) (name d) plugin pluginPrefix)
          END_RULE_HEADER_MARKER))
    path.

(** The exit code after validation wrote the lines [failures]. *)
Definition exitCodeAfter (failures : list string) (before : option Z)
  : option Z :=
  match failures with
  | [] => before
  | _ :: _ => Some 1
  end.

End generator.

(** ** Legends ([lib/legend.ts]) *)

(** The argument of a legend function. *)
Record LegendData : Type := {
  plugin : Plugin;
  configEmojis : ConfigEmojis;
  ignoreConfig : list string;
  urlConfigs : option string;
}.

(** An entry of [LEGENDS]: a string, [undefined], or a function. *)
Inductive Legend : Type :=
| LegendString (s : string)
| LegendUndefined
| LegendFunction (f : LegendData -> result (list string)).

Section legend.
Context `{!LegendImports}.

(** The link to the configs documentation if provided, else the word:
    [configsLinkOrWord] and [configLinkOrWord] of the CONFIGS legend. *)
Definition configsLinkOrWord (urlConfigs : option string) : string :=
  if truthy urlConfigs
  then "[Configurations](" +:+ default "" urlConfigs +:+ ")"
  else "Configurations".

Definition configLinkOrWord (urlConfigs : option string) : string :=
  if truthy urlConfigs
  then "[configuration](" +:+ default "" urlConfigs +:+ ")"
  else "configuration".

(** [LEGENDS[COLUMN_TYPE.CONFIGS]]. *)
Definition LEGENDS_CONFIGS (data : LegendData) : result (list string) :=
  match configs (plugin data) with
  | None =>
      Throw (Error
        "Should not be attempting to display configs column when there are no configs.")
  | Some pluginConfigs =>
      let configNames := pluginConfigs.*1 in
      let configNamesWithoutIgnored :=
        List.filter
          (fun configName => negb (arr_includes (ignoreConfig data) configName))
          configNames in
      let legends :=
        if (1 <? Z.of_nat (length configNamesWithoutIgnored))
           || negb (truthy
                (emoji <$>
                   find (fun configEmoji =>
                           arr_includes configNamesWithoutIgnored (config configEmoji))
                     (configEmojis data)))
        then [EMOJI_CONFIG +:+ " " +:+ configsLinkOrWord (urlConfigs data)
                +:+ " enabled in."]
        else [] in
      Ok (legends ++
          flat_map
            (fun configName =>
               let emoji :=
                 emoji <$>
                   find (fun configEmoji =>
                           bool_decide (config configEmoji = configName))
                     (configEmojis data) in
               if negb (truthy emoji)
               then []
               else [default "" emoji +:+ " Enabled in the `" +:+ configName
                       +:+ "` " +:+ configLinkOrWord (urlConfigs data) +:+ "."])
            configNamesWithoutIgnored)
  end.

(** The configs that are not on the ignore list, in enumeration order. *)
Definition nonIgnoredConfigs
  (pluginConfigs : list (string * Config)) (ignoreConfig : list string)
  : list string :=
  List.filter (fun configName => bool_decide (configName ∉ ignoreConfig))
    pluginConfigs.*1.

(** The emoji assigned to a config: that of its first entry in
    [configEmojis], when that is not empty. *)
Fixpoint assignedEmoji (configEmojis : ConfigEmojis) (configName : string)
  : option string :=
  match configEmojis with
  | [] => None
  | configEmoji :: rest =>
      if decide (config configEmoji = configName)
      then if decide (emoji configEmoji = "") then None
           else Some (emoji configEmoji)
      else assignedEmoji rest configName
  end.

(** The legend line of a config with its emoji. *)
Definition configLegend (urlConfigs : option string) (configName emoji : string)
  : string :=
  emoji +:+ " Enabled in the `" +:+ configName +:+ "` "
    +:+ configLinkOrWord urlConfigs +:+ ".".

(** The generic legend line of the CONFIGS column. *)
Definition genericConfigLegend (urlConfigs : option string) : string :=
  EMOJI_CONFIG +:+ " " +:+ configsLinkOrWord urlConfigs +:+ " enabled in.".

(** One round of the loop over [RULE_TYPES]; the state is [legends] and
    [hasAnyRuleType]. *)
Definition LEGENDS_TYPE_step
  (pluginRules : list (string * Rule))
  (state : list string * bool) (ruleType : string)
  : result (list string * bool) :=
  let '(legends, hasAnyRuleType) := state in
  hasThisRuleType ←
    some
      (fun rule =>
         match rule with
         | RuleFunction => Ok false
         | RuleObject None => Throw TypeError
         | RuleObject (Some meta) =>
             Ok (bool_decide (meta_type meta = Some ruleType))
         end)
      pluginRules.*2;
  if hasThisRuleType : bool then
    let '(legends, hasAnyRuleType) :=
      if negb hasAnyRuleType
      then (legends ++ [EMOJI_TYPE +:+ " The type of rule."], true)
      else (legends, hasAnyRuleType) in
    Ok (legends ++ [RULE_TYPE_MESSAGES_LEGEND ruleType], hasAnyRuleType)
  else Ok (legends, hasAnyRuleType).

(** [LEGENDS[COLUMN_TYPE.TYPE]]. *)
Definition LEGENDS_TYPE (data : LegendData) : result (list string) :=
  match rules (plugin data) with
  | None =>
      Throw (Error
        "Should not be attempting to display type column when there are no rules.")
  | Some pluginRules =>
      state ← forOf (LEGENDS_TYPE_step pluginRules) RULE_TYPES ([], false);
      Ok state.1
  end.

Definition LEGENDS (key : COLUMN_TYPE) : Legend :=
  match key with
  | CONFIGS => LegendFunction LEGENDS_CONFIGS
  | TYPE => LegendFunction LEGENDS_TYPE
  | DEPRECATED => LegendString (EMOJI_DEPRECATED +:+ " Deprecated.")
  | DESCRIPTION => LegendUndefined
  | FIXABLE =>
      LegendString (EMOJI_FIXABLE +:+
        " Automatically fixable by the [`--fix` CLI option](https://eslint.org/docs/user-guide/command-line-interface#--fix).")
  | HAS_SUGGESTIONS =>
      LegendString (EMOJI_HAS_SUGGESTIONS +:+
        " Manually fixable by [editor suggestions](https://eslint.org/docs/developer-guide/working-with-rules#providing-suggestions).")
  | NAME => LegendUndefined
  | REQUIRES_TYPE_CHECKING =>
      LegendString (EMOJI_REQUIRES_TYPE_CHECKING +:+ " Requires type information.")
  end.

(** [generateLegend]: [columns] is the list of the entries of the record,
    in enumeration order. *)
Definition generateLegend
  (columns : list (COLUMN_TYPE * bool)) (plugin : Plugin)
  (configEmojis : ConfigEmojis) (ignoreConfig : list string)
  (urlConfigs : option string) : result string :=
  legends ←
    mapR
      (fun '(columnType, enabled) =>
         if negb enabled then Ok []
         else
           match LEGENDS columnType with
           | LegendUndefined => Ok []
           | LegendString legendStr =>
               if truthy (Some legendStr) then Ok [legendStr] else Ok []
           | LegendFunction legendFn =>
               legendFn {| plugin := plugin;
                           configEmojis := configEmojis;
                           ignoreConfig := ignoreConfig;
                           urlConfigs := urlConfigs |}
           end)
      columns;
  Ok (Js.join (String backslash (String newline "")) (concat legends)).

(** A rule object whose [meta.type] is [ruleType]. *)
Definition declaresType (ruleType : string) (rule : Rule) : bool :=
  match rule with
  | RuleObject (Some meta) => bool_decide (meta_type meta = Some ruleType)
  | _ => false
  end.

(** The members of [RULE_TYPES] that some rule declares, in the order of
    [RULE_TYPES]. *)
Definition typesPresent (pluginRules : list (string * Rule)) : list string :=
  List.filter (fun ruleType => existsb (declaresType ruleType) pluginRules.*2)
    RULE_TYPES.

(** A column that can contribute to the legend: it is enabled and its
    entry in [LEGENDS] is not [undefined]. *)
Definition visibleColumn (column : COLUMN_TYPE * bool) : bool :=
  column.2 &&
  match column.1 with
  | NAME | DESCRIPTION => false
  | _ => true
  end.

End legend.

(** ** A small plugin, to run the definitions on *)

Definition nl : string := String newline "".

Definition exampleSchema : JSON :=
  JArray [JObject [("properties", JObject [("ignoreBar", JObject [])])]].

Definition noFooMeta : Meta :=
  {| meta_docs := Some {| docs_description := Some "Disallow foo.";
                          docs_requiresTypeChecking := None |};
     meta_fixable := Some "code";
     meta_hasSuggestions := None;
     meta_deprecated := None;
     meta_schema := exampleSchema;
     meta_type := Some "problem" |}.

Definition noBarMeta : Meta :=
  {| meta_docs := Some {| docs_description := Some "Disallow bar.";
                          docs_requiresTypeChecking := Some true |};
     meta_fixable := None;
     meta_hasSuggestions := Some true;
     meta_deprecated := None;
     meta_schema := JArray [];
     meta_type := Some "suggestion" |}.

Definition exampleRules : list (string * Rule) :=
  [ ("no-foo", RuleObject (Some noFooMeta));
    ("no-bar", RuleObject (Some noBarMeta));
    ("legacy", RuleFunction) ].

Definition exampleConfigs : list (string * Config) :=
  [ ("recommended",
     {| config_rules := [("example/no-foo", SeverityString "error")] |});
    ("all",
     {| config_rules := [("example/no-foo", SeverityNumber 2);
                         ("example/no-bar", SeverityNumber 1)] |}) ].

Definition examplePlugin : Plugin :=
  {| rules := Some exampleRules; configs := Some exampleConfigs |}.

Definition noFooDetails : RuleDetails :=
  {| name := "no-foo";
     description := Some "Disallow foo.";
     fixable := true;
     hasSuggestions := false;
     requiresTypeChecking := false;
     deprecated := false;
     schema := exampleSchema;
     type := None |}.

Definition noBarDetails : RuleDetails :=
  {| name := "no-bar";
     description := Some "Disallow bar.";
     fixable := false;
     hasSuggestions := true;
     requiresTypeChecking := true;
     deprecated := false;
     schema := JArray [];
     type := None |}.

(** Stand-ins for the imported modules, only to run the examples: a
    schema has options when it is a non-empty array, and its named options
    are the properties of its single object. *)
Definition exampleGeneratorImports : GeneratorImports :=
  {| hasOptions schema :=
       match schema with
       | JArray (_ :: _) => true
       | _ => false
       end;
     getAllNamedOptions schema :=
       match schema with
       | JArray [JObject [(_, JObject properties)]] => properties.*1
       | _ => []
       end;
     generateRuleHeaderLines description name _ pluginPrefix :=
       [ "# " +:+ default "" description +:+ " (`" +:+ pluginPrefix +:+ "/"
           +:+ name +:+ "`)";
         "";
         "<!-- end rule header -->" ];
     updateRulesList _ readme _ _ := readme;
     END_RULE_HEADER_MARKER := "<!-- end rule header -->";
     loadPlugin _ := Ok examplePlugin;
     getPluginPrefix _ := "example";
     format str _ := str;
     resolve := Js.join "/";
     join := Js.join "/" |}.

Definition exampleLegendImports : LegendImports :=
  {| EMOJI_DEPRECATED := "❌";
     EMOJI_FIXABLE := "🔧";
     EMOJI_HAS_SUGGESTIONS := "💡";
     EMOJI_CONFIG := "💼";
     EMOJI_REQUIRES_TYPE_CHECKING := "💭";
     EMOJI_TYPE := "🗂️";
     RULE_TYPES := ["problem"; "suggestion"; "layout"];
     RULE_TYPE_MESSAGES_LEGEND ruleType := "The rule is of type " +:+ ruleType |}.

Definition exampleWorld : World :=
  {| files :=
       {[ "plugin/docs/rules/no-foo.md" := "# Old title" +:+ nl +:+ "no options mentioned";
          "plugin/docs/rules/no-bar.md" := "Bar." +:+ nl +:+ "## Options" ]};
     stderr := [];
     exitCode := None |}.

Definition exampleWorldWithReadme : World :=
  {| files := <["plugin/README.md" := "# example" +:+ nl +:+ "Rules."]>
                (files exampleWorld);
     stderr := [];
     exitCode := None |}.

Definition noBazDetails : RuleDetails :=
  {| name := "no-baz";
     description := None;
     fixable := false;
     hasSuggestions := false;
     requiresTypeChecking := false;
     deprecated := false;
     schema := JArray [];
     type := None |}.

(** A world whose docs carry the marker: the doc of [no-foo] has the
    generated header, that of [no-bar] an older one. *)
Definition exampleMarkedWorld : World :=
  {| files :=
       {[ "plugin/docs/rules/no-foo.md"
            := "# Disallow foo. (`example/no-foo`)" +:+ nl +:+ nl
                 +:+ "<!-- end rule header -->" +:+ nl +:+ "Body of foo.";
          "plugin/docs/rules/no-bar.md"
            := "# Bar" +:+ nl +:+ "<!-- end rule header -->" +:+ nl
                 +:+ "Body of bar." +:+ nl +:+ "## Options" ]};
     stderr := [];
     exitCode := None |}.

(** ** Facts about the built-ins *)

Lemma indexOf_from_absent (l : list string) (x : string) (i : Z) :
  x ∉ l -> indexOf_from l x i = -1.
Proof.
  revert i. induction l as [|y l IH]; intros i Hx; simpl; [done|].
  apply not_elem_of_cons in Hx as [Hne Hx].
  destruct (decide (y = x)); [congruence|]. by apply IH.
Qed.

Lemma indexOf_from_found (pre post : list string) (x : string) (i : Z) :
  x ∉ pre ->
  indexOf_from (pre ++ x :: post) x i = i + Z.of_nat (length pre).
Proof.
  revert i. induction pre as [|y pre IH]; intros i Hx; simpl.
  - destruct (decide (x = x)); [lia|done].
  - apply not_elem_of_cons in Hx as [Hne Hx].
    destruct (decide (y = x)); [congruence|].
    rewrite IH by done. lia.
Qed.

Lemma indexOf_absent (l : list string) (x : string) :
  x ∉ l -> indexOf l x = -1.
Proof. apply indexOf_from_absent. Qed.

Lemma indexOf_found (pre post : list string) (x : string) :
  x ∉ pre -> indexOf (pre ++ x :: post) x = Z.of_nat (length pre).
Proof. intros Hx. unfold indexOf. by rewrite indexOf_from_found. Qed.

(** Every array either lacks [x] or splits at the first [x]. *)
Lemma first_occurrence (l : list string) (x : string) :
  x ∉ l \/ exists pre post, l = pre ++ x :: post /\ x ∉ pre.
Proof.
  induction l as [|y l [IH|(pre & post & -> & Hpre)]].
  - left. apply not_elem_of_nil.
  - destruct (decide (y = x)) as [->|Hne].
    + right. exists [], l. split; [done|apply not_elem_of_nil].
    + left. by apply not_elem_of_cons.
  - right. destruct (decide (y = x)) as [->|Hne].
    + exists [], (pre ++ x :: post). split; [done|apply not_elem_of_nil].
    + exists (y :: pre), post. split; [done|]. by apply not_elem_of_cons.
Qed.

Lemma splice_prepend {A} (l items : list A) : splice l 0 0 items = items ++ l.
Proof.
  unfold splice. simpl.
  replace (Z.to_nat _) with 0%nat by lia.
  replace (Z.to_nat _) with 0%nat by lia. done.
Qed.

Lemma splice_head {A} (pre post items : list A) :
  splice (pre ++ post) 0 (Z.of_nat (length pre)) items = items ++ post.
Proof.
  unfold splice. rewrite length_app. simpl.
  replace (Z.to_nat (Z.min 0 _)) with 0%nat by lia.
  replace (Z.to_nat _) with (length pre) by lia.
  by rewrite take_0, drop_app_length.
Qed.

(** ** The document splicer: equations and properties *)

Lemma replaceOrCreateHeader_absent (lines new : list string) (marker : string) :
  marker ∉ lines ->
  replaceOrCreateHeader lines new marker = new ++ withoutLeadingTitle lines.
Proof.
  intros Habs. unfold replaceOrCreateHeader.
  rewrite (indexOf_absent _ _ Habs). simpl.
  destruct lines as [|line0 rest]; simpl.
  - apply splice_prepend.
  - unfold startsWith. destruct (String.prefix "# " line0).
    + change (-1 + 1) with 0. rewrite splice_prepend.
      change (splice (line0 :: rest) 0 1 [])
        with (splice ([line0] ++ rest) 0 (Z.of_nat (length [line0])) []).
      by rewrite splice_head.
    + apply splice_prepend.
Qed.

Lemma replaceOrCreateHeader_found
  (pre post new : list string) (marker : string) :
  marker ∉ pre ->
  replaceOrCreateHeader (pre ++ marker :: post) new marker = new ++ post.
Proof.
  intros Hpre. unfold replaceOrCreateHeader.
  rewrite (indexOf_found _ _ _ Hpre).
  replace (_ =? -1) with false by (symmetry; apply Z.eqb_neq; lia).
  simpl.
  replace (Z.of_nat (length pre) + 1) with (Z.of_nat (length (pre ++ [marker])))
    by (rewrite length_app; simpl; lia).
  rewrite (cons_middle marker pre post), app_assoc.
  apply splice_head.
Qed.

(** The result always is the new block followed by a suffix of the
    document. *)
Lemma replaceOrCreateHeader_suffix (lines new : list string) (marker : string) :
  exists removed kept,
    lines = removed ++ kept /\
    replaceOrCreateHeader lines new marker = new ++ kept.
Proof.
  destruct (first_occurrence lines marker) as [Habs|(pre & post & -> & Hpre)].
  - rewrite replaceOrCreateHeader_absent by done.
    destruct lines as [|line0 rest]; simpl.
    + by exists [], [].
    + destruct (String.prefix "# " line0).
      * by exists [line0], rest.
      * by exists [], (line0 :: rest).
  - exists (pre ++ [marker]), post.
    rewrite replaceOrCreateHeader_found by done.
    by rewrite <- app_assoc.
Qed.

(** C2: the splicer finds the first line equal to the marker; when there
    is one, at index [i], lines [0..i] are replaced by the new block; when
    there is none, the first line is dropped exactly when it begins with
    the heading sigil and a space, and the new block is put on top. *)
Theorem replaceOrCreateHeader_spec
  (lines newHeaderLines : list string) (marker : string) :
  (exists i : nat,
      lines !! i = Some marker /\
      (forall j : nat, (j < i)%nat -> lines !! j ≠ Some marker) /\
      replaceOrCreateHeader lines newHeaderLines marker
        = newHeaderLines ++ drop (S i) lines)
  \/ ((marker ∉ lines) /\
      replaceOrCreateHeader lines newHeaderLines marker
        = newHeaderLines ++
            match lines with
            | line0 :: rest => if String.prefix "# " line0 then rest else lines
            | [] => []
            end).
Proof.
  destruct (first_occurrence lines marker) as [Habs|(pre & post & -> & Hpre)].
  - right. split; [done|]. by apply replaceOrCreateHeader_absent.
  - left. exists (length pre). split_and!.
    + by rewrite list_lookup_middle.
    + intros j Hj Hlook. rewrite lookup_app_l in Hlook by done.
      apply Hpre. by eapply list_elem_of_lookup_2.
    + rewrite replaceOrCreateHeader_found by done. f_equal.
      rewrite (cons_middle marker pre post), app_assoc.
      replace (S (length pre)) with (length (pre ++ [marker]))
        by (rewrite length_app; simpl; lia).
      by rewrite drop_app_length.
Qed.

(** C3: the result is the new block followed by an untouched suffix of the
    document; what is removed in front of that suffix is the region up to
    and including the first marker line or, without a marker, nothing or a
    single leading heading line. *)
Theorem replaceOrCreateHeader_frame
  (lines newHeaderLines : list string) (marker : string) :
  exists removed kept,
    lines = removed ++ kept /\
    replaceOrCreateHeader lines newHeaderLines marker = newHeaderLines ++ kept /\
    ((exists pre, removed = pre ++ [marker] /\ marker ∉ pre)
     \/ ((marker ∉ lines) /\
         (removed = []
          \/ exists title,
               removed = [title] /\ String.prefix "# " title = true))).
Proof.
  destruct (first_occurrence lines marker) as [Habs|(pre & post & -> & Hpre)].
  - rewrite replaceOrCreateHeader_absent by done.
    destruct lines as [|line0 rest]; simpl.
    + exists [], []. split_and!; [done..|]. right. split; [done|by left].
    + destruct (String.prefix "# " line0) eqn:Htitle.
      * exists [line0], rest. split_and!; [done..|].
        right. split; [done|]. right. by exists line0.
      * exists [], (line0 :: rest). split_and!; [done..|].
        right. split; [done|by left].
  - exists (pre ++ [marker]), post.
    rewrite replaceOrCreateHeader_found by done.
    split_and!; [by rewrite <- app_assoc|done|]. left. by exists pre.
Qed.

(** Applying the splicer to its own output. *)
Lemma replaceOrCreateHeader_twice
  (lines pre post : list string) (marker : string) :
  marker ∉ pre ->
  exists kept,
    replaceOrCreateHeader lines (pre ++ marker :: post) marker
      = (pre ++ marker :: post) ++ kept /\
    replaceOrCreateHeader
      (replaceOrCreateHeader lines (pre ++ marker :: post) marker)
      (pre ++ marker :: post) marker
      = (pre ++ marker :: post) ++ post ++ kept.
Proof.
  intros Hpre.
  destruct (replaceOrCreateHeader_suffix lines (pre ++ marker :: post) marker)
    as (removed & kept & _ & Honce).
  exists kept. split; [done|]. rewrite Honce.
  rewrite <- (app_assoc pre (marker :: post) kept). simpl.
  by rewrite replaceOrCreateHeader_found.
Qed.

Lemma endsWithMarker_first (pre post : list string) (marker : string) :
  marker ∉ pre ->
  endsWithMarker (pre ++ marker :: post) marker <-> post = [].
Proof.
  intros Hpre. split.
  - intros (pre' & Heq & Hpre').
    destruct post as [|line post]; [done|]. exfalso. apply Hpre'.
    assert (Hlen : (length pre < length pre')%nat).
    { apply (f_equal length) in Heq. rewrite !length_app in Heq.
      simpl in Heq. lia. }
    apply (list_elem_of_lookup_2 _ (length pre)).
    rewrite <- (lookup_app_l pre' [marker]) by done.
    rewrite <- Heq. by rewrite list_lookup_middle.
  - intros ->. by exists pre.
Qed.

(** C1, as the code has it: for a new block that contains the marker,
    splicing twice gives the same document as splicing once exactly when
    the marker is the last line of the block and occurs nowhere earlier in
    it. *)
Theorem replaceOrCreateHeader_idempotent_iff
  (lines newHeaderLines : list string) (marker : string) :
  marker ∈ newHeaderLines ->
  replaceOrCreateHeader
    (replaceOrCreateHeader lines newHeaderLines marker) newHeaderLines marker
    = replaceOrCreateHeader lines newHeaderLines marker
  <-> endsWithMarker newHeaderLines marker.
Proof.
  intros Hin.
  destruct (first_occurrence newHeaderLines marker)
    as [Habs|(pre & post & -> & Hpre)]; [done|].
  destruct (replaceOrCreateHeader_twice lines pre post marker Hpre)
    as (kept & -> & ->).
  rewrite endsWithMarker_first by done. split.
  - intros Heq. apply app_inv_head in Heq.
    apply (f_equal length) in Heq. rewrite length_app in Heq.
    destruct post; [done|simpl in Heq; lia].
  - by intros ->.
Qed.

Lemma replaceOrCreateHeader_idempotent_iff_witness :
  "<!-- end rule header -->"
    ∈ ["# New title"; ""; "<!-- end rule header -->"]
  /\ (replaceOrCreateHeader
        (replaceOrCreateHeader ["# Old title"; ""; "Body."]
           ["# New title"; ""; "<!-- end rule header -->"]
           "<!-- end rule header -->")
        ["# New title"; ""; "<!-- end rule header -->"]
        "<!-- end rule header -->"
      = replaceOrCreateHeader ["# Old title"; ""; "Body."]
          ["# New title"; ""; "<!-- end rule header -->"]
          "<!-- end rule header -->"
      <-> endsWithMarker ["# New title"; ""; "<!-- end rule header -->"]
            "<!-- end rule header -->").
Proof.
  assert (Hin : "<!-- end rule header -->"
                  ∈ ["# New title"; ""; "<!-- end rule header -->"])
    by (apply list_elem_of_In; simpl; auto).
  split; [exact Hin|].
  exact (replaceOrCreateHeader_idempotent_iff
           ["# Old title"; ""; "Body."]
           ["# New title"; ""; "<!-- end rule header -->"]
           "<!-- end rule header -->" Hin).
Defined.

(** C1 as stated fails: a block with a line after the marker grows by that
    line on the second application. *)
Lemma replaceOrCreateHeader_not_idempotent :
  "<!-- end rule header -->" ∈ ["<!-- end rule header -->"; "Trailer."]
  /\ replaceOrCreateHeader
       (replaceOrCreateHeader ["Body."]
          ["<!-- end rule header -->"; "Trailer."] "<!-- end rule header -->")
       ["<!-- end rule header -->"; "Trailer."] "<!-- end rule header -->"
     ≠ replaceOrCreateHeader ["Body."]
         ["<!-- end rule header -->"; "Trailer."] "<!-- end rule header -->"
  /\ replaceOrCreateHeader
       (replaceOrCreateHeader ["Body."]
          ["<!-- end rule header -->"; "Trailer."] "<!-- end rule header -->")
       ["<!-- end rule header -->"; "Trailer."] "<!-- end rule header -->"
     = ["<!-- end rule header -->"; "Trailer."; "Trailer."; "Body."].
Proof.
  split; [apply list_elem_of_In; simpl; auto|].
  split; [|reflexivity].
  vm_compute. discriminate.
Qed.

(** ** Rule-doc validation: what a run records *)

Section validation.
Context `{!GeneratorImports}.

Lemma exitCodeAfter_app (f1 f2 : list string) (before : option Z) :
  exitCodeAfter f2 (exitCodeAfter f1 before) = exitCodeAfter (f1 ++ f2) before.
Proof. by destruct f1, f2. Qed.

Lemma expectContent_effect
  (ruleName contents content : string) (expected : bool) (w : World) :
  let failure :=
    if bool_decide (includes contents content = expected) then []
    else ["`" +:+ ruleName +:+ "` rule doc should "
            +:+ (if expected then "" else "not ")
            +:+ "have included: " +:+ content] in
  files (expectContent ruleName contents content expected w) = files w /\
  stderr (expectContent ruleName contents content expected w)
    = stderr w ++ failure /\
  exitCode (expectContent ruleName contents content expected w)
    = exitCodeAfter failure (exitCode w).
Proof.
  unfold expectContent.
  destruct (includes contents content), expected; simpl;
    by rewrite ?app_nil_r.
Qed.

Lemma namedOptions_effect
  (d : RuleDetails) (contents : string) (options : list string) (w : World) :
  let failures :=
    flat_map
      (fun namedOption =>
         if includes contents namedOption then []
         else ["`" +:+ name d +:+ "` rule doc should have included: "
                 +:+ namedOption])
      options in
  let w' :=
    fold_left
      (fun w namedOption => expectContent (name d) contents namedOption true w)
      options w in
  files w' = files w /\
  stderr w' = stderr w ++ failures /\
  exitCode w' = exitCodeAfter failures (exitCode w).
Proof.
  revert w. induction options as [|option options IH]; intros w; simpl.
  - by rewrite app_nil_r.
  - destruct (IH (expectContent (name d) contents option true w))
      as (Hfiles & Herr & Hexit).
    destruct (expectContent_effect (name d) contents option true w)
      as (Hfiles1 & Herr1 & Hexit1).
    simpl in *. rewrite Hfiles, Herr, Hexit, Hfiles1, Herr1, Hexit1.
    split_and!; [done| |].
    + rewrite <- app_assoc. do 2 f_equal.
      by destruct (includes contents option).
    + rewrite exitCodeAfter_app. f_equal.
      by destruct (includes contents option).
Qed.

(** One round of the loop, on a doc that exists. *)
Lemma updateRuleDoc_effect
  (path : string) (plugin : Plugin) (pluginPrefix : string)
  (d : RuleDetails) (contents : string) (w : World) :
  files w !! pathToDoc path (name d) = Some contents ->
  exists w',
    updateRuleDoc path plugin pluginPrefix w d = Ok w' /\
    files w' = <[pathToDoc path (name d)
                 := updatedDoc path plugin pluginPrefix d contents]> (files w) /\
    stderr w' = stderr w ++ expectedFailures d contents /\
    exitCode w' = exitCodeAfter (expectedFailures d contents) (exitCode w).
Proof.
  intros Hfile. unfold updateRuleDoc, readFileSync. rewrite Hfile.
  eexists. split; [reflexivity|].
  match goal with
  | |- context [fold_left _ _ ?w0] =>
      destruct (namedOptions_effect d contents
                  (getAllNamedOptions (schema d)) w0) as (Hf & He & Hx)
  end.
  simpl in Hf, He, Hx. rewrite Hf, He, Hx. clear Hf He Hx.
  match goal with
  | |- context [expectContent ?n ?c ?x ?e ?w0] =>
      destruct (expectContent_effect n c x e w0) as (Hf & He & Hx)
  end.
  simpl in Hf, He, Hx. rewrite Hf, He, Hx. clear Hf He Hx.
  unfold expectedFailures, optionsSectionFailure, namedOptionFailures.
  simpl. split_and!; [done| |].
  - rewrite <- app_assoc. do 2 f_equal.
    by destruct (includes contents "## Options"), (hasOptions (schema d)).
  - rewrite exitCodeAfter_app. do 2 f_equal.
    by destruct (includes contents "## Options"), (hasOptions (schema d)).
Qed.

Lemma docContents_other
  (path : string) (w w1 : World) (d d' : RuleDetails) (data : string) :
  files w1 = <[pathToDoc path (name d) := data]> (files w) ->
  pathToDoc path (name d) ≠ pathToDoc path (name d') ->
  docContents path w1 d' = docContents path w d'.
Proof.
  intros Hfiles Hne. unfold docContents.
  by rewrite Hfiles, lookup_insert_ne.
Qed.

(** C4: every rule doc is validated against the contents read before its
    header is rewritten.  On a run over [ds] whose docs exist (at pairwise
    different paths) the loop does not throw; it writes to standard error,
    rule after rule, the failure of the Options-section check (recorded iff
    the presence of [## Options] in the old contents differs from
    [hasOptions]) and then one failure per named option that the old
    contents do not mention; the exit code becomes 1 as soon as one failure
    is recorded; every doc is rewritten from its old contents, and no other
    file changes. *)
Theorem updateRuleDocs_validation
  (path : string) (plugin : Plugin) (pluginPrefix : string)
  (ds : list RuleDetails) (w : World) :
  NoDup ((fun d => pathToDoc path (name d)) <$> ds) ->
  Forall (fun d => is_Some (files w !! pathToDoc path (name d))) ds ->
  exists w',
    updateRuleDocs path plugin pluginPrefix ds w = Ok w' /\
    stderr w'
      = stderr w ++
        concat ((fun d => expectedFailures d (docContents path w d)) <$> ds) /\
    exitCode w'
      = exitCodeAfter
          (concat ((fun d => expectedFailures d (docContents path w d)) <$> ds))
          (exitCode w) /\
    (forall d, d ∈ ds ->
       files w' !! pathToDoc path (name d)
         = Some (updatedDoc path plugin pluginPrefix d (docContents path w d))) /\
    (forall other,
       other ∉ ((fun d => pathToDoc path (name d)) <$> ds) ->
       files w' !! other = files w !! other).
Proof.
  revert w. induction ds as [|d ds IH]; intros w Hdup Hexist.
  - exists w. simpl. rewrite app_nil_r. split_and!; try done.
    intros d Hd. by apply elem_of_nil in Hd.
  - rewrite fmap_cons in Hdup. apply NoDup_cons in Hdup as [Hfresh Hdup].
    apply Forall_cons in Hexist as [[contents Hfile] Hexist].
    destruct (updateRuleDoc_effect path plugin pluginPrefix d contents w Hfile)
      as (w1 & Hstep & Hfiles1 & Herr1 & Hexit1).
    assert (Hother : Forall (fun d' =>
              pathToDoc path (name d) ≠ pathToDoc path (name d')) ds).
    { apply Forall_forall. intros d' Hd' Heq. apply Hfresh.
      rewrite Heq. apply (list_elem_of_fmap_2 (fun d => pathToDoc path (name d))).
      done. }
    assert (Hcontents :
      (fun d' => expectedFailures d' (docContents path w1 d')) <$> ds
      = (fun d' => expectedFailures d' (docContents path w d')) <$> ds).
    { apply Forall_fmap_ext. eapply Forall_impl; [exact Hother|].
      intros d' Hne. simpl.
      by rewrite (docContents_other path w w1 d d' _ Hfiles1 Hne). }
    destruct (IH w1 Hdup) as (w' & Hrun & Herr & Hexit & Hdocs & Hrest).
    { apply Forall_forall. intros d' Hd'. rewrite Hfiles1.
      rewrite lookup_insert_ne
        by exact (proj1 (Forall_forall _ _) Hother d' Hd').
      exact (proj1 (Forall_forall _ _) Hexist d' Hd'). }
    exists w'. unfold updateRuleDocs in *. simpl. rewrite Hstep.
    assert (Hd : docContents path w d = contents).
    { unfold docContents. by rewrite Hfile. }
    split_and!.
    + done.
    + rewrite Herr, Herr1, Hcontents, Hd. by rewrite <- app_assoc.
    + rewrite Hexit, Hexit1, Hcontents, Hd. apply exitCodeAfter_app.
    + intros d' Hd'. apply elem_of_cons in Hd' as [->|Hd'].
      * rewrite Hrest by done. rewrite Hfiles1, Hd. apply lookup_insert_eq.
      * rewrite Hdocs by done. f_equal. f_equal.
        eapply docContents_other; [exact Hfiles1|].
        by eapply (proj1 (Forall_forall _ _) Hother).
    + intros other Hnot.
      apply not_elem_of_cons in Hnot as [Hne Hnot].
      rewrite Hrest by done. rewrite Hfiles1. by apply lookup_insert_ne.
Qed.

(** C5, as the code has it: for a rule whose schema has no options the
    Options-section check records a failure exactly when the doc contains
    [## Options]; the failure says that the doc should not have included
    the heading, and sets the exit code. *)
Theorem optionsSection_without_options
  (d : RuleDetails) (contents : string) (w : World) :
  hasOptions (schema d) = false ->
  files (expectContent (name d) contents "## Options" (hasOptions (schema d)) w)
    = files w /\
  stderr (expectContent (name d) contents "## Options" (hasOptions (schema d)) w)
    = stderr w ++
      (if includes contents "## Options"
       then ["`" +:+ name d +:+ "` rule doc should not have included: ## Options"]
       else []) /\
  exitCode (expectContent (name d) contents "## Options" (hasOptions (schema d)) w)
    = (if includes contents "## Options" then Some 1 else exitCode w).
Proof.
  intros ->. unfold expectContent.
  destruct (includes contents "## Options"); simpl; by rewrite ?app_nil_r.
Qed.

End validation.

(** ** The metadata normalizer: properties *)

Lemma mapR_total {A B} (f : A -> result B) (l : list A) :
  Forall (fun x => exists y, f x = Ok y) l ->
  exists ys, mapR f l = Ok ys /\ Forall2 (fun x y => f x = Ok y) l ys.
Proof.
  induction 1 as [|x l [y Hy] _ (ys & Hys & Hall)]; simpl.
  - by exists [].
  - rewrite Hy, Hys. exists (y :: ys). split; [done|]. by constructor.
Qed.

Lemma ruleDetails_with_docs (ruleName : string) (rule : Rule) (meta : Meta) :
  rule_meta rule = Some meta ->
  is_Some (meta_docs meta) ->
  exists d,
    ruleDetails (ruleName, rule) = Ok d /\
    name d = ruleName /\
    fixable d
      = (if truthy (meta_fixable meta)
         then arr_includes ["code"; "whitespace"] (default "" (meta_fixable meta))
         else false) /\
    schema d = meta_schema meta /\
    type d = None.
Proof.
  intros Hmeta [docs Hdocs]. unfold ruleDetails. rewrite Hmeta, Hdocs.
  eexists. by split_and!.
Qed.

Lemma fixable_closed_set (declared : option string) :
  (if truthy declared
   then arr_includes ["code"; "whitespace"] (default "" declared)
   else false) = true
  <-> declared = Some "code" \/ declared = Some "whitespace".
Proof.
  destruct declared as [kind|]; simpl.
  - destruct (String.eqb_spec kind "") as [->|Hne]; simpl.
    + split; [done|]. by intros [?|?].
    + unfold arr_includes. rewrite bool_decide_eq_true.
      rewrite !elem_of_cons, elem_of_nil. split.
      * intros [->| [->|[]]]; auto.
      * intros [[= ->]|[= ->]]; auto.
  - split; [done|]. by intros [?|?].
Qed.

(** Every entry that [details] keeps has [meta]; when each of those has
    [docs], [details] returns, with one record per kept entry. *)
Lemma details_total (p : Plugin) (entries : list (string * Rule)) :
  rules p = Some entries ->
  Forall (fun nameAndRule =>
            forall meta, rule_meta nameAndRule.2 = Some meta ->
                         is_Some (meta_docs meta)) entries ->
  exists ds,
    details p = Ok ds /\
    Forall2 (fun nameAndRule d => ruleDetails nameAndRule = Ok d)
      (List.filter
         (fun nameAndRule => bool_decide (is_Some (rule_meta nameAndRule.2)))
         entries)
      ds.
Proof.
  intros Hrules Hdocs. unfold details. rewrite Hrules.
  apply mapR_total. apply Forall_forall. intros [ruleName rule] Hin.
  apply list_elem_of_In, filter_In in Hin as [Hin Hmeta].
  apply bool_decide_eq_true in Hmeta as [meta Hmeta]. simpl in Hmeta.
  apply list_elem_of_In in Hin.
  destruct (ruleDetails_with_docs ruleName rule meta Hmeta) as (d & Hd & _).
  - exact (proj1 (Forall_forall _ _) Hdocs _ Hin meta Hmeta).
  - by exists d.
Qed.

(** C7: for every entry of [plugin.rules] with metadata, the record that
    the normalizer produces for it has [fixable = true] iff the declared
    [meta.fixable] is ['code'] or ['whitespace']; any other value, and an
    absent one, gives [false]. *)
Theorem details_fixable
  (p : Plugin) (entries : list (string * Rule))
  (ruleName : string) (rule : Rule) (meta : Meta) :
  rules p = Some entries ->
  Forall (fun nameAndRule =>
            forall meta, rule_meta nameAndRule.2 = Some meta ->
                         is_Some (meta_docs meta)) entries ->
  (ruleName, rule) ∈ entries ->
  rule_meta rule = Some meta ->
  exists ds d,
    details p = Ok ds /\
    d ∈ ds /\
    name d = ruleName /\
    (fixable d = true
     <-> meta_fixable meta = Some "code" \/ meta_fixable meta = Some "whitespace").
Proof.
  intros Hrules Hdocs Hin Hmeta.
  destruct (details_total p entries Hrules Hdocs) as (ds & Hds & Hall).
  assert (Hkept : (ruleName, rule)
            ∈ List.filter
                (fun nameAndRule => bool_decide (is_Some (rule_meta nameAndRule.2)))
                entries).
  { apply list_elem_of_In, filter_In. split; [by apply list_elem_of_In|].
    apply bool_decide_eq_true. by exists meta. }
  apply list_elem_of_lookup in Hkept as [i Hi].
  destruct (Forall2_lookup_l _ _ _ _ _ Hall Hi) as (d & Hd & Hrec).
  exists ds, d. split; [done|]. split; [by eapply list_elem_of_lookup_2|].
  destruct (ruleDetails_with_docs ruleName rule meta Hmeta)
    as (d' & Hd' & Hname & Hfix & _).
  { exact (proj1 (Forall_forall _ _) Hdocs _ Hin meta Hmeta). }
  rewrite Hd' in Hrec. injection Hrec as ->.
  split; [done|]. rewrite Hfix. apply fixable_closed_set.
Qed.

(** No record that [details] produces carries a rule type. *)
Lemma details_type_absent (p : Plugin) (ds : list RuleDetails) :
  details p = Ok ds -> Forall (fun d => type d = None) ds.
Proof.
  unfold details. destruct (rules p) as [entries|]; [|done].
  generalize (List.filter
    (fun nameAndRule : string * Rule =>
       bool_decide (is_Some (rule_meta nameAndRule.2))) entries).
  intros kept. revert ds. induction kept as [|[ruleName rule] kept IH];
    intros ds; simpl.
  - by intros [= <-].
  - destruct (rule_meta rule) as [meta|]; [|done].
    destruct (meta_docs meta) as [docs|]; [|done].
    destruct (mapR ruleDetails kept) as [ds'|]; [|done].
    intros [= <-]. constructor; [done|]. by apply IH.
Qed.

(** ** The severity sets: properties *)

(** C10: the three severity sets are pairwise disjoint, so a raw severity
    belongs to the set of at most one severity tier. *)
Theorem severity_sets_disjoint :
  SEVERITY_ERROR ## SEVERITY_WARN /\
  SEVERITY_ERROR ## SEVERITY_OFF /\
  SEVERITY_WARN ## SEVERITY_OFF /\
  (forall (v : RuleSeverity) (t1 t2 : SEVERITY_TYPE.t),
     v ∈ SEVERITY_TYPE_TO_SET t1 -> v ∈ SEVERITY_TYPE_TO_SET t2 -> t1 = t2).
Proof.
  assert (Hsets : forall (a b c e : RuleSeverity),
            a ≠ c -> a ≠ e -> b ≠ c -> b ≠ e ->
            ({[ a; b ]} : gset RuleSeverity) ## {[ c; e ]}).
  { intros a b c e Hac Hae Hbc Hbe v Hl Hr.
    rewrite elem_of_union, !elem_of_singleton in Hl, Hr.
    destruct Hl as [->| ->], Hr as [->| ->]; congruence. }
  assert (H1 : SEVERITY_ERROR ## SEVERITY_WARN) by (by apply Hsets).
  assert (H2 : SEVERITY_ERROR ## SEVERITY_OFF) by (by apply Hsets).
  assert (H3 : SEVERITY_WARN ## SEVERITY_OFF) by (by apply Hsets).
  split_and!; [done..|].
  intros v [] []; simpl; intros Ha Hb; try done; exfalso;
    first [ exact (H1 v Ha Hb) | exact (H1 v Hb Ha)
          | exact (H2 v Ha Hb) | exact (H2 v Hb Ha)
          | exact (H3 v Ha Hb) | exact (H3 v Hb Ha) ].
Qed.

(** ** Legends: properties *)

Section legend_properties.
Context `{!LegendImports}.

Lemma nonIgnoredConfigs_filter
  (pluginConfigs : list (string * Config)) (ignoreConfig : list string) :
  List.filter (fun configName => negb (arr_includes ignoreConfig configName))
    pluginConfigs.*1
  = nonIgnoredConfigs pluginConfigs ignoreConfig.
Proof.
  unfold nonIgnoredConfigs, arr_includes.
  induction (pluginConfigs.*1) as [|configName names IH]; simpl; [done|].
  rewrite bool_decide_not, IH. done.
Qed.

(** The emoji found for one config name is the assigned one. *)
Lemma find_assignedEmoji (ces : ConfigEmojis) (configName : string) :
  (if negb (truthy
       (emoji <$> find (fun ce => bool_decide (config ce = configName)) ces))
   then None
   else Some (default ""
       (emoji <$> find (fun ce => bool_decide (config ce = configName)) ces)))
  = assignedEmoji ces configName.
Proof.
  induction ces as [|ce ces IH]; simpl; [done|].
  destruct (decide (config ce = configName)) as [Heq|Hne].
  - rewrite bool_decide_eq_true_2 by done. simpl.
    destruct (String.eqb_spec (emoji ce) "") as [Hempty|Hfull]; simpl.
    + by destruct (decide (emoji ce = "")).
    + by destruct (decide (emoji ce = "")).
  - by rewrite bool_decide_eq_false_2.
Qed.

(** With a sole config, the emoji found among the configs is the one
    assigned to it. *)
Lemma find_sole_config (ces : ConfigEmojis) (configName : string) :
  truthy (emoji <$> find (fun ce => arr_includes [configName] (config ce)) ces)
  = bool_decide (is_Some (assignedEmoji ces configName)).
Proof.
  induction ces as [|ce ces IH]; simpl; [done|]. unfold arr_includes in *.
  destruct (decide (config ce = configName)) as [Heq|Hne].
  - rewrite (bool_decide_eq_true_2 (config ce ∈ [configName]))
      by (by apply list_elem_of_singleton).
    simpl. destruct (String.eqb_spec (emoji ce) "") as [Hempty|Hfull]; simpl.
    + destruct (decide (emoji ce = "")); [|done].
      symmetry. apply bool_decide_eq_false_2. by intros [? ?].
    + destruct (decide (emoji ce = "")); [done|].
      symmetry. by apply bool_decide_eq_true_2.
  - rewrite (bool_decide_eq_false_2 (config ce ∈ [configName])); [done|].
    intros Hin. apply list_elem_of_singleton in Hin. done.
Qed.

Lemma find_no_config (ces : ConfigEmojis) :
  find (fun ce => arr_includes [] (config ce)) ces = None.
Proof.
  induction ces as [|ce ces IH]; [done|].
  change (find (fun ce => arr_includes [] (config ce)) (ce :: ces))
    with (if arr_includes [] (config ce) then Some ce
          else find (fun ce => arr_includes [] (config ce)) ces).
  unfold arr_includes at 1.
  rewrite (bool_decide_eq_false_2 (config ce ∈ [])); [done|].
  apply not_elem_of_nil.
Qed.

Lemma perConfig_lines
  (ces : ConfigEmojis) (url : option string) (names : list string) :
  flat_map
    (fun configName =>
       if negb (truthy
            (emoji <$> find (fun ce => bool_decide (config ce = configName)) ces))
       then []
       else [default ""
               (emoji <$> find (fun ce => bool_decide (config ce = configName)) ces)
               +:+ " Enabled in the `" +:+ configName
               +:+ "` " +:+ configLinkOrWord url +:+ "."])
    names
  = omap (fun configName =>
            configLegend url configName <$> assignedEmoji ces configName)
      names.
Proof.
  induction names as [|configName names IH]; [done|].
  cbn [flat_map omap list_omap]. rewrite IH.
  rewrite <- (find_assignedEmoji ces configName).
  by destruct (negb _).
Qed.

(** C6, as the code has it: for a plugin with a [configs] member, the
    CONFIGS legend is the generic line, emitted iff the number of configs
    that are not ignored is other than one or the sole such config has no
    assigned emoji, followed by exactly one line for each config that is
    not ignored and has an assigned emoji, naming the config and its glyph;
    at least one line is emitted. *)
Theorem LEGENDS_CONFIGS_lines
  (pluginRules : option (list (string * Rule)))
  (pluginConfigs : list (string * Config))
  (ces : ConfigEmojis) (ignored : list string) (url : option string) :
  let names := nonIgnoredConfigs pluginConfigs ignored in
  let perConfig :=
    omap (fun configName =>
            configLegend url configName <$> assignedEmoji ces configName)
      names in
  exists generic,
    LEGENDS_CONFIGS
      {| plugin := {| rules := pluginRules; configs := Some pluginConfigs |};
         configEmojis := ces;
         ignoreConfig := ignored;
         urlConfigs := url |}
      = Ok (generic ++ perConfig) /\
    (generic = [genericConfigLegend url] \/ generic = []) /\
    (generic = [genericConfigLegend url]
     <-> (1 < length names)%nat
         \/ names = []
         \/ exists configName,
              names = [configName] /\ assignedEmoji ces configName = None) /\
    (1 <= length (generic ++ perConfig))%nat.
Proof.
  intros names perConfig. unfold LEGENDS_CONFIGS.
  cbn [plugin configs configEmojis ignoreConfig urlConfigs]. cbv zeta.
  rewrite nonIgnoredConfigs_filter. fold names.
  rewrite perConfig_lines. fold perConfig. fold (genericConfigLegend url).
  destruct names as [|configName [|configName' names']] eqn:Hnames.
  - rewrite find_no_config. simpl.
    exists [genericConfigLegend url]. split_and!; [done|by left| |simpl; lia].
    split; [intros _; right; by left|done].
  - rewrite find_sole_config. simpl.
    destruct (assignedEmoji ces configName) as [glyph|] eqn:Hglyph.
    + rewrite bool_decide_eq_true_2 by done. simpl.
      exists []. split_and!; [done|by right| |].
      * split; [done|]. intros [Hlt|[Hnil|(c & [= <-] & Hnone)]];
          [simpl in Hlt; lia|done|congruence].
      * subst perConfig. simpl. rewrite Hglyph. simpl. lia.
    + rewrite bool_decide_eq_false_2 by (by intros [? ?]). simpl.
      exists [genericConfigLegend url]. split_and!; [done|by left| |simpl; lia].
      split; [|done]. intros _. right. right. by exists configName.
  - simpl length.
    replace (1 <? Z.of_nat (S (S (length names')))) with true
      by (symmetry; apply Z.ltb_lt; lia).
    simpl.
    exists [genericConfigLegend url]. split_and!; [done|by left| |simpl; lia].
    split; [|done]. intros _. left. lia.
Qed.

End legend_properties.

(** ** Legends: the internal errors *)

Section legend_errors.
Context `{!LegendImports}.

Lemma forOf_throws {S A} (P : Exn -> Prop)
  (body : S -> A -> result S) (l : list A) (s : S) (e : Exn) :
  (forall s x e, body s x = Throw e -> P e) ->
  forOf body l s = Throw e -> P e.
Proof.
  intros Hbody. revert s. induction l as [|x l IH]; intros s; simpl; [done|].
  destruct (body s x) as [s'|e'] eqn:Hstep.
  - apply IH.
  - intros [= <-]. by eapply Hbody.
Qed.

Lemma mapR_throws {A B} (f : A -> result B) (l : list A) (e : Exn) :
  mapR f l = Throw e -> exists x, x ∈ l /\ f x = Throw e.
Proof.
  induction l as [|x l IH]; simpl; [done|].
  destruct (f x) as [y|e'] eqn:Hx.
  - destruct (mapR f l) as [ys|e'']; [done|].
    intros [= <-]. destruct IH as (x' & Hin & Hx'); [done|].
    exists x'. split; [by apply elem_of_cons; right|done].
  - intros [= <-]. exists x. split; [apply elem_of_cons; by left|done].
Qed.

Lemma some_throws {A} (P : Exn -> Prop)
  (p : A -> result bool) (l : list A) (e : Exn) :
  (forall x e, p x = Throw e -> P e) ->
  some p l = Throw e -> P e.
Proof.
  intros Hp. induction l as [|x l IH]; simpl; [done|].
  destruct (p x) as [[]|e'] eqn:Hx; [done|done|].
  intros [= <-]. by eapply Hp.
Qed.

(** The loop of the TYPE legend throws nothing but the [TypeError] of a
    rule object without [meta]. *)
Lemma LEGENDS_TYPE_step_throws
  (pluginRules : list (string * Rule)) (state : list string * bool)
  (ruleType : string) (e : Exn) :
  LEGENDS_TYPE_step pluginRules state ruleType = Throw e -> e = TypeError.
Proof.
  unfold LEGENDS_TYPE_step. destruct state as [legends hasAnyRuleType].
  unfold mbind, result_bind, Js.bind.
  match goal with |- context [some ?p ?l] => destruct (some p l) as [b|e'] eqn:Hsome end.
  - destruct b, hasAnyRuleType; done.
  - intros [= <-]. revert Hsome.
    apply (some_throws (fun e => e = TypeError)).
    intros [|[meta|]] e''; [done|done|by intros [= <-]].
Qed.

Lemma LEGENDS_TYPE_no_rules (types : list string) (state : list string * bool) :
  forOf (LEGENDS_TYPE_step []) types state = Ok state.
Proof.
  induction types as [|ruleType types IH]; simpl; [done|].
  by destruct state.
Qed.

(** C9, as the code has it: the CONFIGS legend of a plugin without a
    [configs] member and the TYPE legend of a plugin without a [rules]
    member throw an internal error; with a member that is present but
    empty nothing is thrown: the CONFIGS legend is the generic line alone
    and the TYPE legend is empty.  [generateLegend] throws neither error
    when each of the two columns is enabled only for a plugin that has the
    member. *)
Theorem LEGENDS_internal_errors
  (columns : list (COLUMN_TYPE * bool)) (p : Plugin)
  (ces : ConfigEmojis) (ignored : list string) (url : option string) :
  (configs p = None -> (CONFIGS, true) ∉ columns) ->
  (rules p = None -> (TYPE, true) ∉ columns) ->
  LEGENDS_CONFIGS
    {| plugin := {| rules := rules p; configs := None |};
       configEmojis := ces; ignoreConfig := ignored; urlConfigs := url |}
    = Throw (Error
        "Should not be attempting to display configs column when there are no configs.") /\
  LEGENDS_TYPE
    {| plugin := {| rules := None; configs := configs p |};
       configEmojis := ces; ignoreConfig := ignored; urlConfigs := url |}
    = Throw (Error
        "Should not be attempting to display type column when there are no rules.") /\
  LEGENDS_CONFIGS
    {| plugin := {| rules := rules p; configs := Some [] |};
       configEmojis := ces; ignoreConfig := ignored; urlConfigs := url |}
    = Ok [genericConfigLegend url] /\
  LEGENDS_TYPE
    {| plugin := {| rules := Some []; configs := configs p |};
       configEmojis := ces; ignoreConfig := ignored; urlConfigs := url |}
    = Ok [] /\
  (forall message,
     generateLegend columns p ces ignored url ≠ Throw (Error message)).
Proof.
  intros Hconfigs Hrules. split_and!.
  - done.
  - done.
  - unfold LEGENDS_CONFIGS. cbn [plugin configs configEmojis]. cbv zeta.
    cbn [fmap list_fmap List.filter length]. by rewrite find_no_config.
  - unfold LEGENDS_TYPE. cbn [plugin rules].
    by rewrite LEGENDS_TYPE_no_rules.
  - intros message Hthrow. unfold generateLegend in Hthrow.
    unfold mbind, result_bind, Js.bind in Hthrow.
    match type of Hthrow with
    | context [mapR ?f columns] =>
        destruct (mapR f columns) as [legends|e] eqn:Hmap; [done|]
    end.
    injection Hthrow as ->.
    apply mapR_throws in Hmap as ([columnType enabled] & Hin & Hcolumn).
    destruct enabled; [|done]. simpl in Hcolumn.
    destruct columnType; simpl in Hcolumn; try done;
      try by (destruct (negb (String.eqb _ _)) in Hcolumn).
    + unfold LEGENDS_CONFIGS in Hcolumn. cbn [plugin] in Hcolumn.
      destruct (configs p) as [pluginConfigs|] eqn:Hp; [done|].
      by apply Hconfigs.
    + unfold LEGENDS_TYPE in Hcolumn. cbn [plugin] in Hcolumn.
      destruct (rules p) as [pluginRules|] eqn:Hp; [|by apply Hrules].
      unfold mbind, result_bind, Js.bind in Hcolumn.
      destruct (forOf _ _ _) as [state|e] eqn:Hloop; [done|].
      injection Hcolumn as ->.
      pose proof (forOf_throws (fun e => e = TypeError) _ _ _ _
                    (LEGENDS_TYPE_step_throws pluginRules) Hloop) as He.
      discriminate He.
Qed.

End legend_errors.

(** ** The examples *)

Lemma updateRuleDocs_validation_witness :
  exists w',
    @updateRuleDocs exampleGeneratorImports "plugin" examplePlugin "example"
      [noFooDetails; noBarDetails] exampleWorld = Ok w' /\
    stderr w'
      = [ "`no-foo` rule doc should have included: ## Options";
          "`no-foo` rule doc should have included: ignoreBar";
          "`no-bar` rule doc should not have included: ## Options" ] /\
    exitCode w' = Some 1 /\
    files w' !! "plugin/docs/rules/no-foo.md"
      = Some ("# Disallow foo. (`example/no-foo`)" +:+ nl +:+ nl
                +:+ "<!-- end rule header -->" +:+ nl
                +:+ "no options mentioned").
Proof.
  assert (Hdup : NoDup ((fun d => @pathToDoc exampleGeneratorImports "plugin" (name d))
                          <$> [noFooDetails; noBarDetails])).
  { apply (bool_decide_unpack _). vm_compute. exact I. }
  assert (Hexist : Forall
            (fun d => is_Some (files exampleWorld
                                 !! @pathToDoc exampleGeneratorImports "plugin" (name d)))
            [noFooDetails; noBarDetails]).
  { apply (bool_decide_unpack _). vm_compute. exact I. }
  destruct (@updateRuleDocs_validation exampleGeneratorImports
              "plugin" examplePlugin "example"
              [noFooDetails; noBarDetails] exampleWorld Hdup Hexist)
    as (w' & Hrun & Herr & Hexit & Hdocs & _).
  exists w'. split; [exact Hrun|].
  split; [rewrite Herr; vm_compute; reflexivity|].
  split; [rewrite Hexit; vm_compute; reflexivity|].
  refine (eq_trans (Hdocs noFooDetails _) _).
  - apply list_elem_of_In. simpl. auto.
  - vm_compute. reflexivity.
Defined.

Lemma optionsSection_without_options_witness :
  @hasOptions exampleGeneratorImports (schema noBarDetails) = false /\
  stderr (expectContent (name noBarDetails) ("Bar." +:+ nl +:+ "## Options")
            "## Options"
            (@hasOptions exampleGeneratorImports (schema noBarDetails))
            exampleWorld)
    = stderr exampleWorld ++
      (if includes ("Bar." +:+ nl +:+ "## Options") "## Options"
       then ["`" +:+ name noBarDetails
               +:+ "` rule doc should not have included: ## Options"]
       else []).
Proof.
  split; [reflexivity|].
  exact (proj1 (proj2
    (@optionsSection_without_options exampleGeneratorImports noBarDetails
       ("Bar." +:+ nl +:+ "## Options") exampleWorld eq_refl))).
Defined.

(** C5 as stated fails: a rule without options whose doc has an Options
    section is reported. *)
Lemma optionsSection_reported_without_options :
  @hasOptions exampleGeneratorImports (schema noBarDetails) = false /\
  stderr (expectContent (name noBarDetails) ("Bar." +:+ nl +:+ "## Options")
            "## Options"
            (@hasOptions exampleGeneratorImports (schema noBarDetails))
            exampleWorld)
    = ["`no-bar` rule doc should not have included: ## Options"] /\
  exitCode (expectContent (name noBarDetails) ("Bar." +:+ nl +:+ "## Options")
              "## Options"
              (@hasOptions exampleGeneratorImports (schema noBarDetails))
              exampleWorld)
    = Some 1.
Proof. by split_and!. Qed.

(** C6 as stated fails: with every config ignored there is neither more
    than one config left nor a sole one, and the generic line is emitted. *)
Lemma LEGENDS_CONFIGS_all_ignored :
  @LEGENDS_CONFIGS exampleLegendImports
    {| plugin := examplePlugin;
       configEmojis := [ {| config := "recommended"; emoji := "✅" |} ];
       ignoreConfig := ["recommended"; "all"];
       urlConfigs := None |}
    = Ok ["💼 Configurations enabled in."] /\
  exampleConfigs ≠ [] /\
  nonIgnoredConfigs exampleConfigs ["recommended"; "all"] = [].
Proof. by split_and!. Qed.

Lemma details_fixable_witness :
  exists ds d,
    details examplePlugin = Ok ds /\
    d ∈ ds /\
    name d = "no-foo" /\
    (fixable d = true
     <-> meta_fixable noFooMeta = Some "code"
         \/ meta_fixable noFooMeta = Some "whitespace").
Proof.
  apply (details_fixable examplePlugin exampleRules
           "no-foo" (RuleObject (Some noFooMeta)) noFooMeta).
  - reflexivity.
  - repeat constructor; simpl; intros meta [= <-]; by eexists.
  - apply list_elem_of_In. simpl. auto.
  - reflexivity.
Defined.

(** C8 fails on the code: the rules of the example plugin declare the
    types [problem] and [suggestion], and the records made for them carry
    no type. *)
Theorem details_drops_type :
  meta_type noFooMeta = Some "problem" /\
  meta_type noBarMeta = Some "suggestion" /\
  details examplePlugin = Ok [noFooDetails; noBarDetails] /\
  type <$> [noFooDetails; noBarDetails] = [None; None].
Proof. by split_and!. Qed.

Lemma LEGENDS_internal_errors_witness :
  @LEGENDS_CONFIGS exampleLegendImports
    {| plugin := {| rules := rules examplePlugin; configs := None |};
       configEmojis := []; ignoreConfig := []; urlConfigs := None |}
    = Throw (Error
        "Should not be attempting to display configs column when there are no configs.") /\
  (forall message,
     @generateLegend exampleLegendImports
       [(NAME, true); (CONFIGS, true); (TYPE, true); (FIXABLE, false)]
       examplePlugin [] [] None
     ≠ Throw (Error message)).
Proof.
  destruct (@LEGENDS_internal_errors exampleLegendImports
              [(NAME, true); (CONFIGS, true); (TYPE, true); (FIXABLE, false)]
              examplePlugin [] [] None) as (Hthrow & _ & _ & _ & Hguard).
  - intros Habsent. discriminate Habsent.
  - intros Habsent. discriminate Habsent.
  - split; [exact Hthrow|exact Hguard].
Defined.

(** C9 as stated fails: a plugin whose [configs] and [rules] are empty
    objects exposes no config and no rule, and both legends are rendered. *)
Lemma LEGENDS_of_empty_plugin :
  @LEGENDS_CONFIGS exampleLegendImports
    {| plugin := {| rules := Some []; configs := Some [] |};
       configEmojis := []; ignoreConfig := []; urlConfigs := None |}
    = Ok ["💼 Configurations enabled in."] /\
  @LEGENDS_TYPE exampleLegendImports
    {| plugin := {| rules := Some []; configs := Some [] |};
       configEmojis := []; ignoreConfig := []; urlConfigs := None |}
    = Ok [].
Proof. by split_and!. Qed.

(** ** Further properties of the splicer *)

(** What the splicer keeps of a document does not depend on the block. *)
Lemma replaceOrCreateHeader_kept (lines : list string) (marker : string) :
  exists kept, forall new, replaceOrCreateHeader lines new marker = new ++ kept.
Proof.
  destruct (first_occurrence lines marker) as [Habs|(pre & post & -> & Hpre)].
  - exists (withoutLeadingTitle lines). intros new.
    by apply replaceOrCreateHeader_absent.
  - exists post. intros new. by apply replaceOrCreateHeader_found.
Qed.

(** A later header replaces an earlier one without residue: splicing
    [new2] into a document that was spliced with [new1] gives what
    splicing [new2] into the original document gives. *)
Theorem replaceOrCreateHeader_overwrite
  (lines new1 new2 : list string) (marker : string) :
  endsWithMarker new1 marker ->
  replaceOrCreateHeader (replaceOrCreateHeader lines new1 marker) new2 marker
  = replaceOrCreateHeader lines new2 marker.
Proof.
  intros (pre & -> & Hpre).
  destruct (replaceOrCreateHeader_kept lines marker) as (kept & Hkept).
  rewrite !Hkept. rewrite <- (app_assoc pre [marker] kept). simpl.
  by apply replaceOrCreateHeader_found.
Qed.

Lemma replaceOrCreateHeader_overwrite_witness :
  endsWithMarker ["# Title"; "<!-- end rule header -->"]
    "<!-- end rule header -->" /\
  replaceOrCreateHeader
    (replaceOrCreateHeader ["# Old title"; "Body."]
       ["# Title"; "<!-- end rule header -->"] "<!-- end rule header -->")
    ["# Other title"; "Notice."; "<!-- end rule header -->"]
    "<!-- end rule header -->"
  = replaceOrCreateHeader ["# Old title"; "Body."]
      ["# Other title"; "Notice."; "<!-- end rule header -->"]
      "<!-- end rule header -->".
Proof.
  assert (Hends : endsWithMarker ["# Title"; "<!-- end rule header -->"]
                    "<!-- end rule header -->").
  { exists ["# Title"]. split; [reflexivity|].
    intros Hin. apply list_elem_of_singleton in Hin. discriminate Hin. }
  split; [exact Hends|].
  exact (replaceOrCreateHeader_overwrite ["# Old title"; "Body."]
           ["# Title"; "<!-- end rule header -->"]
           ["# Other title"; "Notice."; "<!-- end rule header -->"]
           "<!-- end rule header -->" Hends).
Defined.

(** After splicing a block that contains the marker, the marker is found
    in the result, at the position of its first occurrence in the block:
    the next run takes the replace branch, never the create branch. *)
Theorem replaceOrCreateHeader_marker_found
  (lines new : list string) (marker : string) :
  marker ∈ new ->
  exists i : nat,
    indexOf (replaceOrCreateHeader lines new marker) marker = Z.of_nat i /\
    new !! i = Some marker /\
    (forall j : nat, (j < i)%nat -> new !! j ≠ Some marker).
Proof.
  intros Hin.
  destruct (first_occurrence new marker) as [Habs|(pre & post & -> & Hpre)];
    [done|].
  destruct (replaceOrCreateHeader_kept lines marker) as (kept & Hkept).
  exists (length pre). rewrite Hkept. split_and!.
  - rewrite <- app_assoc. simpl. by apply indexOf_found.
  - by rewrite list_lookup_middle.
  - intros j Hj Hlook. rewrite lookup_app_l in Hlook by done.
    apply Hpre. by eapply list_elem_of_lookup_2.
Qed.

Lemma replaceOrCreateHeader_marker_found_witness :
  "<!-- end rule header -->" ∈ ["# Title"; "<!-- end rule header -->"] /\
  exists i : nat,
    indexOf
      (replaceOrCreateHeader ["# Old title"; "Body."]
         ["# Title"; "<!-- end rule header -->"] "<!-- end rule header -->")
      "<!-- end rule header -->" = Z.of_nat i /\
    ["# Title"; "<!-- end rule header -->"] !! i
      = Some "<!-- end rule header -->" /\
    (forall j : nat, (j < i)%nat ->
       ["# Title"; "<!-- end rule header -->"] !! j
         ≠ Some "<!-- end rule header -->").
Proof.
  assert (Hin : "<!-- end rule header -->"
                  ∈ ["# Title"; "<!-- end rule header -->"])
    by (apply list_elem_of_In; simpl; auto).
  split; [exact Hin|].
  exact (replaceOrCreateHeader_marker_found ["# Old title"; "Body."]
           ["# Title"; "<!-- end rule header -->"]
           "<!-- end rule header -->" Hin).
Defined.

(** ** Splitting a document into lines and joining it back *)

Lemma split_not_nil (sep : Ascii.ascii) (s : string) : split sep s ≠ [].
Proof.
  destruct s as [|c s]; simpl; [done|].
  destruct (Ascii.eqb c sep); [done|]. by destruct (split sep s).
Qed.

Lemma join_cons_cons (sep x y : string) (l : list string) :
  Js.join sep (x :: y :: l) = x +:+ sep +:+ Js.join sep (y :: l).
Proof. done. Qed.


Lemma append_nil_r (a : string) : a +:+ "" = a.
Proof.
  induction a as [|ch a IH]; [reflexivity|].
  change (String ch (a +:+ "") = String ch a). by rewrite IH.
Qed.

Lemma join_cons_char (sep : string) (c : Ascii.ascii) (piece : string)
  (pieces : list string) :
  Js.join sep (String c piece :: pieces)
  = String c (Js.join sep (piece :: pieces)).
Proof. by destruct pieces. Qed.

Lemma join_split (sep : Ascii.ascii) (s : string) :
  Js.join (String sep "") (split sep s) = s.
Proof.
  induction s as [|c s IH]; [done|]. cbn [split].
  destruct (split sep s) as [|piece pieces] eqn:Hsplit;
    [by apply split_not_nil in Hsplit|].
  destruct (Ascii.eqb_spec c sep) as [->|Hne].
  - rewrite join_cons_cons, IH. done.
  - by rewrite join_cons_char, IH.
Qed.



(** ** Further properties of the rule-doc loop *)

Section rule_docs.
Context `{!GeneratorImports}.

Lemma forOf_app {S A} (body : S -> A -> result S) (l1 l2 : list A) (s : S) :
  forOf body (l1 ++ l2) s
  = match forOf body l1 s with
    | Ok s' => forOf body l2 s'
    | Throw e => Throw e
    end.
Proof.
  revert s. induction l1 as [|x l1 IH]; intros s; simpl; [done|].
  by destruct (body s x).
Qed.

(** A doc whose header already is the generated one is written back as
    the formatter's output on its old text: nothing but formatting can
    change it. *)
Theorem updateRuleDoc_up_to_date
  (path : string) (plugin : Plugin) (pluginPrefix : string)
  (d : RuleDetails) (contents : string) (rest : list string) (w : World) :
  files w !! pathToDoc path (name d) = Some contents ->
  endsWithMarker
    (generateRuleHeaderLines (description d) (name d) plugin pluginPrefix)
    END_RULE_HEADER_MARKER ->
  split newline contents
    = generateRuleHeaderLines (description d) (name d) plugin pluginPrefix
        ++ rest ->
  exists w',
    updateRuleDoc path plugin pluginPrefix w d = Ok w' /\
    files w' = <[pathToDoc path (name d) := format contents path]> (files w).
Proof.
  intros Hfile (pre & Hheader & Hpre) Hsplit.
  destruct (updateRuleDoc_effect path plugin pluginPrefix d contents w Hfile)
    as (w' & Hrun & Hfiles & _).
  exists w'. split; [done|]. rewrite Hfiles. f_equal.
  unfold updatedDoc. rewrite Hsplit, Hheader.
  rewrite <- (app_assoc pre [END_RULE_HEADER_MARKER] rest). simpl.
  rewrite replaceOrCreateHeader_found by done.
  rewrite <- (app_assoc pre [END_RULE_HEADER_MARKER] rest). simpl.
  rewrite (cons_middle END_RULE_HEADER_MARKER pre rest), app_assoc.
  rewrite <- Hheader, <- Hsplit. by rewrite join_split.
Qed.


(** A run of the loop on docs that exist. *)
Lemma updateRuleDocs_run
  (path : string) (plugin : Plugin) (pluginPrefix : string)
  (ds : list RuleDetails) (w : World) :
  Forall (fun d => is_Some (files w !! pathToDoc path (name d))) ds ->
  exists w' printed,
    updateRuleDocs path plugin pluginPrefix ds w = Ok w' /\
    dom (files w') = dom (files w) /\
    (forall other,
       other ∉ ((fun d => pathToDoc path (name d)) <$> ds) ->
       files w' !! other = files w !! other) /\
    stderr w' = stderr w ++ printed /\
    exitCode w' = exitCodeAfter printed (exitCode w).
Proof.
  revert w. induction ds as [|d ds IH]; intros w Hexist.
  - exists w, []. simpl. by rewrite app_nil_r.
  - apply Forall_cons in Hexist as [[contents Hfile] Hexist].
    destruct (updateRuleDoc_effect path plugin pluginPrefix d contents w Hfile)
      as (w1 & Hstep & Hfiles1 & Herr1 & Hexit1).
    assert (Hdom1 : dom (files w1) = dom (files w)).
    { rewrite Hfiles1, dom_insert_L.
      apply subseteq_union_1_L, singleton_subseteq_l, elem_of_dom.
      by eexists. }
    destruct (IH w1) as (w' & printed & Hrun & Hdom & Hrest & Herr & Hexit).
    { eapply Forall_impl; [exact Hexist|]. intros d' Hsome. simpl in *.
      apply elem_of_dom. rewrite Hdom1. by apply elem_of_dom. }
    exists w', (expectedFailures d contents ++ printed).
    unfold updateRuleDocs in *. simpl. rewrite Hstep. split_and!.
    + done.
    + by rewrite Hdom, Hdom1.
    + intros other Hnot. apply not_elem_of_cons in Hnot as [Hne Hnot].
      rewrite Hrest by done. rewrite Hfiles1. by apply lookup_insert_ne.
    + by rewrite Herr, Herr1, <- app_assoc.
    + by rewrite Hexit, Hexit1, exitCodeAfter_app.
Qed.

(** The loop creates no file and deletes none, and it changes no file
    other than the docs of the rules it is given. *)
Theorem updateRuleDocs_keeps_files
  (path : string) (plugin : Plugin) (pluginPrefix : string)
  (ds : list RuleDetails) (w : World) :
  Forall (fun d => is_Some (files w !! pathToDoc path (name d))) ds ->
  exists w',
    updateRuleDocs path plugin pluginPrefix ds w = Ok w' /\
    dom (files w') = dom (files w) /\
    (forall other,
       other ∉ ((fun d => pathToDoc path (name d)) <$> ds) ->
       files w' !! other = files w !! other).
Proof.
  intros Hexist.
  destruct (updateRuleDocs_run path plugin pluginPrefix ds w Hexist)
    as (w' & printed & Hrun & Hdom & Hrest & _).
  by exists w'.
Qed.

(** The loop only appends to standard error, and the exit code tells
    whether it did: it is 1 when a line was written and unchanged when
    none was; a failing exit code is never reset. *)
Theorem updateRuleDocs_exit_code
  (path : string) (plugin : Plugin) (pluginPrefix : string)
  (ds : list RuleDetails) (w : World) :
  Forall (fun d => is_Some (files w !! pathToDoc path (name d))) ds ->
  exists w' printed,
    updateRuleDocs path plugin pluginPrefix ds w = Ok w' /\
    stderr w' = stderr w ++ printed /\
    (printed = [] -> exitCode w' = exitCode w) /\
    (printed ≠ [] -> exitCode w' = Some 1) /\
    (exitCode w = Some 1 -> exitCode w' = Some 1).
Proof.
  intros Hexist.
  destruct (updateRuleDocs_run path plugin pluginPrefix ds w Hexist)
    as (w' & printed & Hrun & _ & _ & Herr & Hexit).
  exists w', printed. rewrite Hexit. split_and!; try done.
  - by intros ->.
  - by destruct printed.
  - intros ->. by destruct printed.
Qed.

(** A missing doc is fatal: the loop throws [ENOENT] for the first rule
    whose doc does not exist and processes no further rule. *)
Theorem updateRuleDocs_missing_doc
  (path : string) (plugin : Plugin) (pluginPrefix : string)
  (ds1 ds2 : list RuleDetails) (d : RuleDetails) (w : World) :
  Forall (fun d => is_Some (files w !! pathToDoc path (name d))) ds1 ->
  files w !! pathToDoc path (name d) = None ->
  updateRuleDocs path plugin pluginPrefix (ds1 ++ d :: ds2) w
  = Throw (ENOENT (pathToDoc path (name d))).
Proof.
  intros Hexist Hmissing.
  destruct (updateRuleDocs_run path plugin pluginPrefix ds1 w Hexist)
    as (w1 & printed & Hrun & Hdom & _).
  unfold updateRuleDocs in *. rewrite forOf_app, Hrun. simpl.
  assert (Hmissing1 : files w1 !! pathToDoc path (name d) = None).
  { apply not_elem_of_dom. rewrite Hdom. by apply not_elem_of_dom. }
  unfold updateRuleDoc at 1, readFileSync. by rewrite Hmissing1.
Qed.

End rule_docs.

(** ** Further properties of the metadata normalizer *)

Lemma mapR_Forall2 {A B} (f : A -> result B) (l : list A) (ys : list B) :
  mapR f l = Ok ys -> Forall2 (fun x y => f x = Ok y) l ys.
Proof.
  revert ys. induction l as [|x l IH]; intros ys; simpl.
  - intros [= <-]. constructor.
  - destruct (f x) as [y|e] eqn:Hx; [|done].
    destruct (mapR f l) as [ys'|e]; [|done].
    intros [= <-]. constructor; [done|]. by apply IH.
Qed.

Lemma mapR_throws_at {A B} (f : A -> result B) (l : list A) (x : A) (e : Exn) :
  x ∈ l -> f x = Throw e -> exists e', mapR f l = Throw e'.
Proof.
  induction l as [|y l IH]; intros Hin Hx; [by apply elem_of_nil in Hin|].
  simpl. destruct (f y) as [z|e'] eqn:Hy; [|by eexists].
  apply elem_of_cons in Hin as [->|Hin]; [congruence|].
  destruct (IH Hin Hx) as (e' & ->). by eexists.
Qed.



(** When the normalizer returns, it has made one record for each rule
    with [meta], in the order of the plugin's rules: the record has the
    rule's name, description and schema, and each flag that the rule
    leaves out is [false]. *)
Theorem details_records
  (p : Plugin) (entries : list (string * Rule)) (ds : list RuleDetails) :
  rules p = Some entries ->
  details p = Ok ds ->
  Forall2
    (fun nameAndRule d =>
       exists meta docs,
         rule_meta nameAndRule.2 = Some meta /\
         meta_docs meta = Some docs /\
         name d = nameAndRule.1 /\
         description d = docs_description docs /\
         hasSuggestions d = default false (meta_hasSuggestions meta) /\
         requiresTypeChecking d = default false (docs_requiresTypeChecking docs) /\
         deprecated d = default false (meta_deprecated meta) /\
         schema d = meta_schema meta)
    (List.filter
       (fun nameAndRule => bool_decide (is_Some (rule_meta nameAndRule.2)))
       entries)
    ds.
Proof.
  intros Hrules Hds. unfold details in Hds. rewrite Hrules in Hds.
  apply mapR_Forall2 in Hds. eapply Forall2_impl; [exact Hds|].
  intros [ruleName rule] d. unfold ruleDetails. simpl.
  destruct (rule_meta rule) as [meta|]; [|done].
  destruct (meta_docs meta) as [docs|] eqn:Hdocs; [|done].
  intros [= <-]. exists meta, docs. by split_and!.
Qed.

Lemma details_records_witness :
  rules examplePlugin = Some exampleRules /\
  details examplePlugin = Ok [noFooDetails; noBarDetails] /\
  Forall2
    (fun nameAndRule d =>
       exists meta docs,
         rule_meta nameAndRule.2 = Some meta /\
         meta_docs meta = Some docs /\
         name d = nameAndRule.1 /\
         description d = docs_description docs /\
         hasSuggestions d = default false (meta_hasSuggestions meta) /\
         requiresTypeChecking d = default false (docs_requiresTypeChecking docs) /\
         deprecated d = default false (meta_deprecated meta) /\
         schema d = meta_schema meta)
    (List.filter
       (fun nameAndRule => bool_decide (is_Some (rule_meta nameAndRule.2)))
       exampleRules)
    [noFooDetails; noBarDetails].
Proof.
  split; [reflexivity|]. split; [reflexivity|].
  exact (details_records examplePlugin exampleRules
           [noFooDetails; noBarDetails] eq_refl eq_refl).
Defined.

(** ** Properties of a whole run *)

Section run.
Context `{!GeneratorImports}.

(** A run on a plugin that loads and normalizes, with all rule docs and
    the README on disk, returns: the rule docs are updated first, then
    the README is replaced by the formatted output of [updateRulesList] on
    the README as it is after the docs were updated; that last step writes
    nothing to standard error and leaves the exit code alone. *)
Theorem generate_returns
  (path : string) (p : Plugin) (ds : list RuleDetails) (w : World) :
  loadPlugin path = Ok p ->
  details p = Ok ds ->
  Forall (fun d => is_Some (files w !! pathToDoc path (name d))) ds ->
  is_Some (files w !! resolve [path; "README.md"]) ->
  exists w1 readme,
    updateRuleDocs path p (getPluginPrefix path) ds w = Ok w1 /\
    files w1 !! resolve [path; "README.md"] = Some readme /\
    (resolve [path; "README.md"] ∉ ((fun d => pathToDoc path (name d)) <$> ds) ->
     files w !! resolve [path; "README.md"] = Some readme) /\
    generate path w
    = Ok {| files :=
              <[resolve [path; "README.md"]
                := format (updateRulesList ds readme p (getPluginPrefix path))
                     path]> (files w1);
            stderr := stderr w1;
            exitCode := exitCode w1 |}.
Proof.
  intros Hload Hds Hdocs Hreadme.
  destruct (updateRuleDocs_run path p (getPluginPrefix path) ds w Hdocs)
    as (w1 & printed & Hrun & Hdom & Hrest & _).
  assert (Hreadme1 : is_Some (files w1 !! resolve [path; "README.md"])).
  { apply elem_of_dom. rewrite Hdom. by apply elem_of_dom. }
  destruct Hreadme1 as [readme Hreadme1].
  exists w1, readme. split_and!; [done|done| |].
  - intros Hnot. by rewrite <- (Hrest _ Hnot).
  - unfold generate. rewrite Hload. simpl. rewrite Hds. simpl.
    rewrite Hrun. simpl. unfold readFileSync. by rewrite Hreadme1.
Qed.

(** Without a README the run throws [ENOENT] for it, after the loop over
    the rule docs. *)
Theorem generate_missing_readme
  (path : string) (p : Plugin) (ds : list RuleDetails) (w : World) :
  loadPlugin path = Ok p ->
  details p = Ok ds ->
  Forall (fun d => is_Some (files w !! pathToDoc path (name d))) ds ->
  files w !! resolve [path; "README.md"] = None ->
  generate path w = Throw (ENOENT (resolve [path; "README.md"])).
Proof.
  intros Hload Hds Hdocs Hreadme.
  destruct (updateRuleDocs_run path p (getPluginPrefix path) ds w Hdocs)
    as (w1 & printed & Hrun & Hdom & _).
  assert (Hreadme1 : files w1 !! resolve [path; "README.md"] = None).
  { apply not_elem_of_dom. rewrite Hdom. by apply not_elem_of_dom. }
  unfold generate. rewrite Hload. simpl. rewrite Hds. simpl.
  rewrite Hrun. simpl. unfold readFileSync. by rewrite Hreadme1.
Qed.

End run.

(** ** Further properties of the legends *)

Section legend_lines.
Context `{!LegendImports}.

Lemma some_declaresType (ruleType : string) (pluginRules : list Rule) :
  Forall (fun rule => rule ≠ RuleObject None) pluginRules ->
  some
    (fun rule =>
       match rule with
       | RuleFunction => Ok false
       | RuleObject None => Throw TypeError
       | RuleObject (Some meta) =>
           Ok (bool_decide (meta_type meta = Some ruleType))
       end)
    pluginRules
  = Ok (existsb (declaresType ruleType) pluginRules).
Proof.
  induction 1 as [|rule pluginRules Hrule _ IH]; simpl; [done|].
  destruct rule as [|[meta|]]; simpl; [done| |done].
  by destruct (bool_decide (meta_type meta = Some ruleType)).
Qed.

Lemma LEGENDS_TYPE_loop
  (pluginRules : list (string * Rule)) (types legends : list string)
  (hasAnyRuleType : bool) :
  Forall (fun rule => rule ≠ RuleObject None) pluginRules.*2 ->
  forOf (LEGENDS_TYPE_step pluginRules) types (legends, hasAnyRuleType)
  = Ok (legends ++
        match List.filter
                (fun ruleType => existsb (declaresType ruleType) pluginRules.*2)
                types with
        | [] => []
        | present =>
            (if hasAnyRuleType then [] else [EMOJI_TYPE +:+ " The type of rule."])
              ++ (RULE_TYPE_MESSAGES_LEGEND <$> present)
        end,
        hasAnyRuleType ||
        negb (bool_decide
                (List.filter
                   (fun ruleType => existsb (declaresType ruleType) pluginRules.*2)
                   types = []))).
Proof.
  intros Hmeta. revert legends hasAnyRuleType.
  induction types as [|ruleType types IH]; intros legends hasAnyRuleType.
  - simpl. by rewrite app_nil_r, orb_false_r.
  - cbn [forOf List.filter]. unfold LEGENDS_TYPE_step at 1.
    rewrite (some_declaresType ruleType _ Hmeta).
    unfold mbind, result_bind, Js.bind.
    destruct (existsb (declaresType ruleType) pluginRules.*2).
    + destruct hasAnyRuleType; cbn [negb]; rewrite IH; simpl;
        rewrite ?orb_true_r;
        destruct (List.filter _ types); simpl;
        by rewrite <- ?app_assoc.
    + by rewrite IH.
Qed.

(** When every rule object has [meta], the TYPE legend is empty if no
    rule declares a type of [RULE_TYPES]; otherwise it is the generic
    line, once and first, followed by the line of each type of
    [RULE_TYPES] that some rule declares, in the order of [RULE_TYPES].
    Function-style rules and types outside [RULE_TYPES] contribute
    nothing. *)
Theorem LEGENDS_TYPE_lines
  (pluginRules : list (string * Rule))
  (pluginConfigs : option (list (string * Config)))
  (ces : ConfigEmojis) (ignored : list string) (url : option string) :
  Forall (fun nameAndRule => nameAndRule.2 ≠ RuleObject None) pluginRules ->
  LEGENDS_TYPE
    {| plugin := {| rules := Some pluginRules; configs := pluginConfigs |};
       configEmojis := ces; ignoreConfig := ignored; urlConfigs := url |}
  = Ok match typesPresent pluginRules with
       | [] => []
       | present =>
           (EMOJI_TYPE +:+ " The type of rule.")
             :: (RULE_TYPE_MESSAGES_LEGEND <$> present)
       end.
Proof.
  intros Hmeta. unfold LEGENDS_TYPE. cbn [plugin rules].
  rewrite LEGENDS_TYPE_loop by (by apply Forall_fmap).
  unfold mbind, result_bind, Js.bind, typesPresent. simpl.
  by destruct (List.filter _ RULE_TYPES).
Qed.

Lemma some_meta_missing
  (ruleType : string) (before after : list Rule) :
  Forall (fun rule => declaresType ruleType rule = false) before ->
  some
    (fun rule =>
       match rule with
       | RuleFunction => Ok false
       | RuleObject None => Throw TypeError
       | RuleObject (Some meta) =>
           Ok (bool_decide (meta_type meta = Some ruleType))
       end)
    (before ++ RuleObject None :: after)
  = Throw TypeError.
Proof.
  induction 1 as [|rule before Hrule _ IH]; simpl; [done|].
  destruct rule as [|[meta|]]; simpl in *; [done| |done].
  by rewrite Hrule.
Qed.

Lemma forOf_throws_at {S A}
  (body : S -> A -> result S) (l : list A) (x : A) (s : S) :
  x ∈ l ->
  (forall s, exists e, body s x = Throw e) ->
  exists e, forOf body l s = Throw e.
Proof.
  intros Hin Hx. revert s.
  induction l as [|y l IH]; intros s; [by apply elem_of_nil in Hin|].
  simpl. apply elem_of_cons in Hin as [<-|Hin].
  - destruct (Hx s) as (e & ->). by eexists.
  - destruct (body s y) as [s'|e]; [by apply IH|by eexists].
Qed.

(** A rule object without [meta] makes the TYPE legend throw a
    [TypeError] as soon as the rules in front of it do not all settle the
    search for some type of [RULE_TYPES]. *)
Theorem LEGENDS_TYPE_meta_missing
  (before after : list (string * Rule)) (ruleName ruleType : string)
  (pluginConfigs : option (list (string * Config)))
  (ces : ConfigEmojis) (ignored : list string) (url : option string) :
  ruleType ∈ RULE_TYPES ->
  Forall (fun nameAndRule => declaresType ruleType nameAndRule.2 = false)
    before ->
  LEGENDS_TYPE
    {| plugin :=
         {| rules := Some (before ++ (ruleName, RuleObject None) :: after);
            configs := pluginConfigs |};
       configEmojis := ces; ignoreConfig := ignored; urlConfigs := url |}
  = Throw TypeError.
Proof.
  intros Htype Hbefore. unfold LEGENDS_TYPE. cbn [plugin rules].
  destruct (forOf_throws_at
              (LEGENDS_TYPE_step (before ++ (ruleName, RuleObject None) :: after))
              RULE_TYPES ruleType ([], false) Htype) as (e & He).
  { intros [legends hasAnyRuleType]. exists TypeError.
    unfold LEGENDS_TYPE_step. rewrite fmap_app, fmap_cons. simpl.
    rewrite some_meta_missing; [done|]. by apply Forall_fmap. }
  rewrite He. simpl.
  pose proof (forOf_throws (fun e => e = TypeError) _ _ _ _
                (LEGENDS_TYPE_step_throws _) He) as ->.
  done.
Qed.

(** What [generateLegend] computes before joining: the legend lines of
    the columns, or the first exception. *)
Lemma generateLegend_lines
  (f : COLUMN_TYPE * bool -> result (list string))
  (column : COLUMN_TYPE * bool) (columns : list (COLUMN_TYPE * bool)) :
  (legends ← mapR f (column :: columns); Ok (concat legends))
  = (lines ← f column;
     rest ← (legends ← mapR f columns; Ok (concat legends));
     Ok (lines ++ rest)).
Proof.
  unfold mbind, result_bind, Js.bind. simpl.
  destruct (f column) as [lines|e]; [|done].
  by destruct (mapR f columns).
Qed.

Lemma generateLegend_concat
  (columns : list (COLUMN_TYPE * bool)) (p : Plugin)
  (ces : ConfigEmojis) (ignored : list string) (url : option string) :
  generateLegend columns p ces ignored url
  = (lines ←
       (legends ←
          mapR
            (fun '(columnType, enabled) =>
               if negb enabled then Ok []
               else
                 match LEGENDS columnType with
                 | LegendUndefined => Ok []
                 | LegendString legendStr =>
                     if truthy (Some legendStr) then Ok [legendStr] else Ok []
                 | LegendFunction legendFn =>
                     legendFn {| plugin := p;
                                 configEmojis := ces;
                                 ignoreConfig := ignored;
                                 urlConfigs := url |}
                 end)
            columns;
        Ok (concat legends));
     Ok (Js.join (String backslash (String newline "")) lines)).
Proof.
  unfold generateLegend, mbind, result_bind, Js.bind.
  by destruct (mapR _ columns).
Qed.

(** A column that is turned off, and a column without an entry in
    [LEGENDS] (NAME, DESCRIPTION), contributes nothing: the legend is
    that of the remaining columns, also when it is an exception. *)
Theorem generateLegend_hidden_columns
  (columns : list (COLUMN_TYPE * bool)) (p : Plugin)
  (ces : ConfigEmojis) (ignored : list string) (url : option string) :
  generateLegend columns p ces ignored url
  = generateLegend (List.filter visibleColumn columns) p ces ignored url.
Proof.
  rewrite !generateLegend_concat. f_equal.
  induction columns as [|[columnType enabled] columns IH]; [done|].
  cbn [List.filter]. rewrite generateLegend_lines, IH.
  destruct (visibleColumn (columnType, enabled)) eqn:Hvisible.
  - by rewrite generateLegend_lines.
  - unfold visibleColumn in Hvisible. simpl in Hvisible.
    destruct enabled; simpl.
    + destruct columnType; try discriminate Hvisible; simpl;
        unfold mbind, result_bind, Js.bind;
        by destruct (mapR _ (List.filter visibleColumn columns)).
    + unfold mbind, result_bind, Js.bind.
      by destruct (mapR _ (List.filter visibleColumn columns)).
Qed.

(** [generateLegend] has no guard of its own: with the CONFIGS column on
    for a plugin without [configs], or the TYPE column on for a plugin
    without [rules], it throws. *)
Theorem generateLegend_unguarded
  (columns : list (COLUMN_TYPE * bool)) (p : Plugin)
  (ces : ConfigEmojis) (ignored : list string) (url : option string) :
  ((CONFIGS, true) ∈ columns /\ configs p = None)
  \/ ((TYPE, true) ∈ columns /\ rules p = None) ->
  exists e, generateLegend columns p ces ignored url = Throw e.
Proof.
  intros Hcolumn. unfold generateLegend, mbind, result_bind, Js.bind.
  match goal with
  | |- context [mapR ?f columns] =>
      assert (Hthrow : exists e, mapR f columns = Throw e)
  end.
  { destruct Hcolumn as [[Hin Hnone]|[Hin Hnone]].
    - eapply (mapR_throws_at _ _ (CONFIGS, true)); [exact Hin|].
      simpl. unfold LEGENDS_CONFIGS. cbn [plugin]. by rewrite Hnone.
    - eapply (mapR_throws_at _ _ (TYPE, true)); [exact Hin|].
      simpl. unfold LEGENDS_TYPE. cbn [plugin]. by rewrite Hnone. }
  destruct Hthrow as (e & ->). by exists e.
Qed.

Lemma truthy_append (a b : string) (c : Ascii.ascii) :
  truthy (Some (a +:+ String c b)) = true.
Proof. by destruct a. Qed.

(** Without the CONFIGS and the TYPE column the legend never fails, and
    it is the same text for every plugin, emoji list, ignore list and
    URL. *)
Theorem generateLegend_static
  (columns : list (COLUMN_TYPE * bool)) :
  Forall (fun column => column.2 = true ->
                        column.1 ≠ CONFIGS /\ column.1 ≠ TYPE) columns ->
  exists text,
    forall (p : Plugin) (ces : ConfigEmojis) (ignored : list string)
           (url : option string),
      generateLegend columns p ces ignored url = Ok text.
Proof.
  intros Hstatic.
  assert (Hlines : exists lines,
    forall p ces ignored url,
      (legends ←
         mapR
           (fun '(columnType, enabled) =>
              if negb enabled then Ok []
              else
                match LEGENDS columnType with
                | LegendUndefined => Ok []
                | LegendString legendStr =>
                    if truthy (Some legendStr) then Ok [legendStr] else Ok []
                | LegendFunction legendFn =>
                    legendFn {| plugin := p;
                                configEmojis := ces;
                                ignoreConfig := ignored;
                                urlConfigs := url |}
                end)
           columns;
       Ok (concat legends)) = Ok lines).
  { induction Hstatic as [|[columnType enabled] columns Hcolumn _ (rest & IH)].
    - by exists [].
    - simpl in Hcolumn. destruct enabled.
      + destruct (Hcolumn eq_refl) as [Hconfigs Htype].
        destruct columnType; try done;
          eexists; intros p ces ignored url;
          rewrite generateLegend_lines, IH; cbn [negb LEGENDS];
          rewrite ?truthy_append; reflexivity.
      + exists rest. intros p ces ignored url.
        by rewrite generateLegend_lines, IH. }
  destruct Hlines as (lines & Hlines).
  exists (Js.join (String backslash (String newline "")) lines).
  intros p ces ignored url. by rewrite generateLegend_concat, Hlines.
Qed.

End legend_lines.

(** ** The severity tiers cover the six encodings *)

(** A raw severity belongs to the set of some tier exactly when it is one
    of [0], [1], [2], ['off'], ['warn'], ['error']: any other number or
    string is in no tier. *)
Theorem severity_tier_exists (v : RuleSeverity) :
  (exists tier, v ∈ SEVERITY_TYPE_TO_SET tier)
  <-> v ∈ [ SeverityNumber 0; SeverityNumber 1; SeverityNumber 2;
            SeverityString "off"; SeverityString "warn";
            SeverityString "error" ].
Proof.
  rewrite !elem_of_cons, elem_of_nil. split.
  - intros [[] Hin]; simpl in Hin;
      unfold SEVERITY_ERROR, SEVERITY_WARN, SEVERITY_OFF in Hin;
      rewrite elem_of_union, !elem_of_singleton in Hin;
      destruct Hin as [->| ->]; auto 10.
  - intros [->|[->|[->|[->|[->|[->|[]]]]]]];
      [ exists SEVERITY_TYPE.off | exists SEVERITY_TYPE.warn
      | exists SEVERITY_TYPE.error | exists SEVERITY_TYPE.off
      | exists SEVERITY_TYPE.warn | exists SEVERITY_TYPE.error ];
      simpl; unfold SEVERITY_ERROR, SEVERITY_WARN, SEVERITY_OFF;
      rewrite elem_of_union, !elem_of_singleton; auto.
Qed.

(** ** Further examples *)

Lemma updateRuleDoc_up_to_date_witness :
  exists w',
    @updateRuleDoc exampleGeneratorImports "plugin" examplePlugin "example"
      exampleMarkedWorld noFooDetails = Ok w' /\
    files w'
    = <["plugin/docs/rules/no-foo.md"
        := "# Disallow foo. (`example/no-foo`)" +:+ nl +:+ nl
             +:+ "<!-- end rule header -->" +:+ nl +:+ "Body of foo."]>
        (files exampleMarkedWorld).
Proof.
  apply (@updateRuleDoc_up_to_date exampleGeneratorImports
           "plugin" examplePlugin "example" noFooDetails
           ("# Disallow foo. (`example/no-foo`)" +:+ nl +:+ nl
              +:+ "<!-- end rule header -->" +:+ nl +:+ "Body of foo.")
           ["Body of foo."] exampleMarkedWorld).
  - vm_compute. reflexivity.
  - exists ["# Disallow foo. (`example/no-foo`)"; ""]. split; [reflexivity|].
    apply (bool_decide_unpack _). vm_compute. exact I.
  - vm_compute. reflexivity.
Defined.


Lemma updateRuleDocs_keeps_files_witness :
  exists w',
    @updateRuleDocs exampleGeneratorImports "plugin" examplePlugin "example"
      [noFooDetails; noBarDetails] exampleWorldWithReadme = Ok w' /\
    dom (files w') = dom (files exampleWorldWithReadme) /\
    files w' !! "plugin/README.md"
      = Some ("# example" +:+ nl +:+ "Rules.").
Proof.
  destruct (@updateRuleDocs_keeps_files exampleGeneratorImports
              "plugin" examplePlugin "example"
              [noFooDetails; noBarDetails] exampleWorldWithReadme)
    as (w' & Hrun & Hdom & Hrest).
  - apply (bool_decide_unpack _). vm_compute. exact I.
  - exists w'. split; [exact Hrun|]. split; [exact Hdom|].
    rewrite Hrest.
    + vm_compute. reflexivity.
    + apply (bool_decide_unpack _). vm_compute. exact I.
Defined.

Lemma updateRuleDocs_exit_code_witness :
  exists w' printed,
    @updateRuleDocs exampleGeneratorImports "plugin" examplePlugin "example"
      [noFooDetails; noBarDetails] exampleWorld = Ok w' /\
    stderr w' = stderr exampleWorld ++ printed /\
    (printed = [] -> exitCode w' = exitCode exampleWorld) /\
    (printed ≠ [] -> exitCode w' = Some 1) /\
    (exitCode exampleWorld = Some 1 -> exitCode w' = Some 1).
Proof.
  apply (@updateRuleDocs_exit_code exampleGeneratorImports
           "plugin" examplePlugin "example"
           [noFooDetails; noBarDetails] exampleWorld).
  apply (bool_decide_unpack _). vm_compute. exact I.
Defined.

Lemma updateRuleDocs_missing_doc_witness :
  @updateRuleDocs exampleGeneratorImports "plugin" examplePlugin "example"
    ([noFooDetails] ++ noBazDetails :: [noBarDetails]) exampleWorld
  = Throw (ENOENT "plugin/docs/rules/no-baz.md").
Proof.
  apply (@updateRuleDocs_missing_doc exampleGeneratorImports
           "plugin" examplePlugin "example"
           [noFooDetails] [noBarDetails] noBazDetails exampleWorld).
  - apply (bool_decide_unpack _). vm_compute. exact I.
  - vm_compute. reflexivity.
Defined.

Lemma generate_returns_witness :
  exists w1 w',
    @updateRuleDocs exampleGeneratorImports "plugin" examplePlugin "example"
      [noFooDetails; noBarDetails] exampleWorldWithReadme = Ok w1 /\
    @generate exampleGeneratorImports "plugin" exampleWorldWithReadme = Ok w' /\
    files w' = <["plugin/README.md" := "# example" +:+ nl +:+ "Rules."]> (files w1) /\
    stderr w' = stderr w1 /\
    exitCode w' = exitCode w1.
Proof.
  destruct (@generate_returns exampleGeneratorImports "plugin"
              examplePlugin [noFooDetails; noBarDetails] exampleWorldWithReadme)
    as (w1 & readme & Hrun & Hreadme1 & Hreadme & Hgenerate).
  - reflexivity.
  - reflexivity.
  - apply (bool_decide_unpack _). vm_compute. exact I.
  - apply (bool_decide_unpack _). vm_compute. exact I.
  - assert (Hr : readme = "# example" +:+ nl +:+ "Rules.").
    { assert (Hsome : Some ("# example" +:+ nl +:+ "Rules.") = Some readme).
      { rewrite <- Hreadme.
        - vm_compute. reflexivity.
        - apply (bool_decide_unpack _). vm_compute. exact I. }
      by injection Hsome. }
    eexists w1, _. split; [exact Hrun|]. split; [exact Hgenerate|].
    rewrite Hr. by split_and!.
Defined.

Lemma generate_missing_readme_witness :
  @generate exampleGeneratorImports "plugin" exampleWorld
  = Throw (ENOENT "plugin/README.md").
Proof.
  apply (@generate_missing_readme exampleGeneratorImports "plugin"
           examplePlugin [noFooDetails; noBarDetails] exampleWorld).
  - reflexivity.
  - reflexivity.
  - apply (bool_decide_unpack _). vm_compute. exact I.
  - vm_compute. reflexivity.
Defined.

Lemma LEGENDS_TYPE_lines_witness :
  @LEGENDS_TYPE exampleLegendImports
    {| plugin := {| rules := Some exampleRules; configs := None |};
       configEmojis := []; ignoreConfig := []; urlConfigs := None |}
  = Ok [ "🗂️ The type of rule.";
         "The rule is of type problem";
         "The rule is of type suggestion" ].
Proof.
  refine (eq_trans
            (@LEGENDS_TYPE_lines exampleLegendImports exampleRules None [] [] None _)
            _).
  - repeat constructor; discriminate.
  - reflexivity.
Defined.

Lemma LEGENDS_TYPE_meta_missing_witness :
  @LEGENDS_TYPE exampleLegendImports
    {| plugin :=
         {| rules := Some ([("legacy", RuleFunction);
                            ("no-bar", RuleObject (Some noBarMeta))]
                           ++ ("broken", RuleObject None)
                           :: [("no-foo", RuleObject (Some noFooMeta))]);
            configs := None |};
       configEmojis := []; ignoreConfig := []; urlConfigs := None |}
  = Throw TypeError.
Proof.
  apply (@LEGENDS_TYPE_meta_missing exampleLegendImports
           [("legacy", RuleFunction); ("no-bar", RuleObject (Some noBarMeta))]
           [("no-foo", RuleObject (Some noFooMeta))]
           "broken" "problem" None [] [] None).
  - apply list_elem_of_In. simpl. auto.
  - repeat constructor.
Defined.

Lemma generateLegend_unguarded_witness :
  exists e,
    @generateLegend exampleLegendImports
      [(NAME, true); (FIXABLE, true); (CONFIGS, true)]
      {| rules := Some exampleRules; configs := None |} [] [] None
    = Throw e.
Proof.
  apply (@generateLegend_unguarded exampleLegendImports
           [(NAME, true); (FIXABLE, true); (CONFIGS, true)]
           {| rules := Some exampleRules; configs := None |} [] [] None).
  left. split; [|reflexivity]. apply list_elem_of_In. simpl. auto.
Defined.

Lemma generateLegend_static_witness :
  exists text,
    forall (p : Plugin) (ces : ConfigEmojis) (ignored : list string)
           (url : option string),
      @generateLegend exampleLegendImports
        [(NAME, true); (FIXABLE, true); (CONFIGS, false); (DEPRECATED, true)]
        p ces ignored url
      = Ok text.
Proof.
  apply (@generateLegend_static exampleLegendImports
           [(NAME, true); (FIXABLE, true); (CONFIGS, false); (DEPRECATED, true)]).
  repeat (constructor;
          [simpl; intros Henabled; try discriminate Henabled;
           split; discriminate|]).
  constructor.
Defined.
